(** * Ingestion handler of the profiling server (pkg/server/ingest.go)

    A shallow embedding of [ingestParamsFromRequest], the three parser
    wrappers and [ingestHandler], with the collaborators the file calls
    (key parser, time resolver, format decoders, tree, buffer pool, storage
    ingester) taken as an interface.  Effects are threaded through an
    explicit world: the tree heap, the pool, the storage, the counters
    and the chronological trace of calls made on the collaborators. *)

From Stdlib Require Import ZArith Lia Ascii String.
From stdpp Require Import base gmap strings list.

Local Open Scope string_scope.
Local Open Scope Z_scope.
Local Open Scope list_scope.

(** ** Go values *)

(** [[]byte]: a byte slice. *)
Abbreviation bytes := (list Byte.byte).

(** Go's [error] values met in this file: a plain message, the
    [*strconv.NumError] built by [strconv.Atoi], and the [*fmt.wrapError]
    built by [fmt.Errorf] with the verb [%w]. *)
Inductive NumErrKind := ErrSyntax | ErrRange.

Inductive error :=
| errorString (s : string)
| numError (func num : string) (kind : NumErrKind)
| wrapError (msg : string) (err : error).

Definition NumErrKind_msg (k : NumErrKind) : string :=
  match k with
  | ErrSyntax => "invalid syntax"
  | ErrRange => "value out of range"
  end.

(** [strconv.Quote] on a string that needs no escape: the string between
    double quotes. *)
Definition Quote (s : string) : string :=
  let dq := ascii_of_nat 34 in
  String dq (s +:+ String dq EmptyString).

(** [err.Error()] *)
Definition Error (e : error) : string :=
  match e with
  | errorString s => s
  | numError f n k =>
      "strconv." +:+ f +:+ ": parsing " +:+ Quote n +:+ ": " +:+ NumErrKind_msg k
  | wrapError msg _ => msg
  end.

(** [errors.Unwrap] *)
Definition Unwrap (e : error) : option error :=
  match e with
  | wrapError _ inner => Some inner
  | _ => None
  end.

(** [fmt.Errorf("name: %w", err)] *)
Definition Errorf_name (err : error) : error :=
  wrapError ("name: " +:+ Error err) err.

(** ** strconv.Atoi on a 64-bit platform *)

Definition intSize : Z := 64.
Definition minInt : Z := - 2 ^ (intSize - 1).
Definition maxInt : Z := 2 ^ (intSize - 1) - 1.

Definition digitVal (c : ascii) : option Z :=
  let n := Z.of_N (N_of_ascii c) in
  if (48 <=? n) && (n <=? 57) then Some (n - 48) else None.

(** The largest [uint64]. *)
Definition maxUint64 : Z := 2 ^ 64 - 1.

(** The digit loop of [strconv.ParseUint] in base 10, from left to right: a
    character that is not a digit is a syntax error; a digit that takes the
    value above the largest [uint64] is a range error, returned at once,
    whatever follows. *)
Fixpoint parseDigits (s : string) (acc : Z) : Z + NumErrKind :=
  match s with
  | EmptyString => inl acc
  | String c s' =>
      match digitVal c with
      | Some d =>
          if maxUint64 <? acc * 10 + d then inr ErrRange
          else parseDigits s' (acc * 10 + d)
      | None => inr ErrSyntax
      end
  end.

(** The sign is optional and at least one digit is required; the digits are
    read by the loop above, and a value outside [int] is a range error.
    Go returns a value next to the error; the caller below reads the value
    only when the error is nil, so the model returns one or the other. *)
Definition Atoi (s : string) : Z + error :=
  let syntax := inr (numError "Atoi" s ErrSyntax) in
  match s with
  | EmptyString => syntax
  | String c rest =>
      let neg := bool_decide (c = "-"%char) in
      let signed := neg || bool_decide (c = "+"%char) in
      let body := if signed then rest else s in
      match body with
      | EmptyString => syntax
      | _ =>
          match parseDigits body 0 with
          | inr kind => inr (numError "Atoi" s kind)
          | inl n =>
              let v := if neg then - n else n in
              if (minInt <=? v) && (v <=? maxInt) then inl v
              else inr (numError "Atoi" s ErrRange)
          end
      end
  end.

(** The conversion [uint32(x)] of an [int]: the low 32 bits. *)
Definition uint32 (x : Z) : Z := x mod 2 ^ 32.

(** The conversion [uint64(x)] of an [int]: the low 64 bits. *)
Definition uint64 (x : Z) : Z := x mod 2 ^ 64.

(** ** Requests *)

(** [url.Values] and [http.Header]: a key maps to the list of its values. *)
Abbreviation Values := (gmap string (list string)).

(** [Values.Get] and [Header.Get]: the first value of the key, or the
    empty string when the key is absent.  A header is kept under its
    canonical name, which "Content-Type" already is. *)
Definition Get (v : Values) (key : string) : string :=
  match v !! key with
  | Some (x :: _) => x
  | _ => ""
  end.

Record Request := {
  Query : Values;
  Header : Values;
  Body : bytes;
}.

(** ** Collaborators

    Everything the handler reaches outside its own file.  A decoder of the
    callback shapes talks to its caller only by calling [cb], which returns
    nothing, and by returning an error: one run is the sequence of
    [(key, count)] pairs it delivers and the error it returns. *)

(** [time.Time] *)
Definition Time := Z.

(** [*tree.Tree]: nil, or the address of a tree. *)
Inductive TreePtr := nilTree | treeAt (l : nat).

#[global] Instance TreePtr_eq_dec : EqDecision TreePtr.
Proof. solve_decision. Defined.

Record Emission := {
  delivered : list (bytes * Z);
  returned : option error;
}.

(** [*bytebufferpool.ByteBuffer] *)
Record ByteBuffer := { B : bytes }.

(** [storage.PutInput], as far as the handler fills it. *)
Record PutInput (Key : Type) := {
  StartTime : Time;
  EndTime : Time;
  PKey : option Key;
  Val : TreePtr;
  SpyName : string;
  SampleRate : Z;
  Units : string;
  AggregationType : string;
}.
Arguments StartTime {Key}.
Arguments EndTime {Key}.
Arguments PKey {Key}.
Arguments Val {Key}.
Arguments SpyName {Key}.
Arguments SampleRate {Key}.
Arguments Units {Key}.
Arguments AggregationType {Key}.

Class Collaborators := {
  (** pkg/storage/segment *)
  Key : Type;
  ParseKey : string -> Key + error;
  AppName : Key -> string;
  (** pkg/storage/tree *)
  Tree : Type;
  tree_New : Tree;
  tree_Insert : bytes -> Z -> Tree -> Tree;
  DeserializeV1NoDict : bytes -> list Tree -> (TreePtr * option error) * list Tree;
  (** pkg/convert *)
  ParseTrieBuf : bytes -> bytes -> Emission;
  ParseIndividualLines : bytes -> Emission;
  ParseGroups : bytes -> Emission;
  (** pkg/util/attime, given the reading of the clock *)
  attime_Parse : string -> Time -> Time;
  (** the wall clock: its successive readings *)
  time_Now : nat -> Time;
  (** pkg/agent/types *)
  DefaultSampleRate : Z;
  (** ctrl.bufferPool *)
  PoolSt : Type;
  pool_Get : PoolSt -> ByteBuffer * PoolSt;
  pool_Put : ByteBuffer -> PoolSt -> PoolSt;
  (** ctrl.ingester *)
  Storage : Type;
  ingester_Put : PutInput Key -> Storage -> option error * Storage;
}.

Section Ingest.
Context `{C : Collaborators}.

(** ** The world *)

(** [http.StatusUnprocessableEntity] *)
Definition StatusUnprocessableEntity : Z := 422.

(** Calls made on the collaborators, the logger and the response writer. *)
Inductive Event :=
| EvLogError (field : string) (val : error) (msg : string)
| EvPoolGet (b : ByteBuffer)
| EvParse (body tmpBuf : bytes)
| EvPoolPut (b : ByteBuffer)
| EvWriteInvalidParameterError (err : error)
| EvWriteError (status : Z) (err : error) (msg : string)
| EvWriteInternalServerError (err : error) (msg : string)
| EvIngesterPut (pi : PutInput Key)
| EvStatsInc (name : string)
| EvAppStatsAdd (app : string)
| EvPanic (msg : string).

Record World := {
  w_ticks : nat;
  w_trees : list Tree;
  w_pool : PoolSt;
  w_storage : Storage;
  w_stats : gmap string nat;
  w_appStats : gset string;
  w_trace : list Event;
}.

Definition with_ticks (n : nat) (w : World) : World :=
  {| w_ticks := n; w_trees := w_trees w; w_pool := w_pool w;
     w_storage := w_storage w; w_stats := w_stats w;
     w_appStats := w_appStats w; w_trace := w_trace w |}.

Definition with_trees (h : list Tree) (w : World) : World :=
  {| w_ticks := w_ticks w; w_trees := h; w_pool := w_pool w;
     w_storage := w_storage w; w_stats := w_stats w;
     w_appStats := w_appStats w; w_trace := w_trace w |}.

Definition with_pool (p : PoolSt) (w : World) : World :=
  {| w_ticks := w_ticks w; w_trees := w_trees w; w_pool := p;
     w_storage := w_storage w; w_stats := w_stats w;
     w_appStats := w_appStats w; w_trace := w_trace w |}.

Definition with_storage (s : Storage) (w : World) : World :=
  {| w_ticks := w_ticks w; w_trees := w_trees w; w_pool := w_pool w;
     w_storage := s; w_stats := w_stats w;
     w_appStats := w_appStats w; w_trace := w_trace w |}.

Definition with_stats (m : gmap string nat) (w : World) : World :=
  {| w_ticks := w_ticks w; w_trees := w_trees w; w_pool := w_pool w;
     w_storage := w_storage w; w_stats := m;
     w_appStats := w_appStats w; w_trace := w_trace w |}.

Definition with_appStats (a : gset string) (w : World) : World :=
  {| w_ticks := w_ticks w; w_trees := w_trees w; w_pool := w_pool w;
     w_storage := w_storage w; w_stats := w_stats w;
     w_appStats := a; w_trace := w_trace w |}.

Definition with_trace (t : list Event) (w : World) : World :=
  {| w_ticks := w_ticks w; w_trees := w_trees w; w_pool := w_pool w;
     w_storage := w_storage w; w_stats := w_stats w;
     w_appStats := w_appStats w; w_trace := t |}.

(** A computation of the handler: it reads and changes the world. *)
Definition M (A : Type) : Type := World -> A * World.

Definition ret {A} (a : A) : M A := fun w => (a, w).

Definition bind {A R} (m : M A) (k : A -> M R) : M R :=
  fun w => let (a, w') := m w in k a w'.

Notation "'let*' x ':=' m 'in' k" := (bind m (fun x => k))
  (at level 10, x pattern, m at level 200, k at level 200).

Definition emit (e : Event) : M unit :=
  fun w => (tt, with_trace (w_trace w ++ [e]) w).

(** [time.Now()] *)
Definition Now : M Time :=
  fun w => (time_Now (w_ticks w), with_ticks (S (w_ticks w)) w).

(** [attime.Parse(qt)] *)
Definition attimeParse (qt : string) : M Time :=
  let* now := Now in ret (attime_Parse qt now).

(** [logrus.WithField("err", err).Errorf("invalid sample rate: %v", sr)] *)
Definition logInvalidSampleRate (err : error) (sr : string) : M unit :=
  emit (EvLogError "err" err ("invalid sample rate: " +:+ sr)).

(** [ctrl.bufferPool.Get()] *)
Definition bufferPool_Get : M ByteBuffer :=
  fun w =>
    let (b, p) := pool_Get (w_pool w) in
    (b, with_trace (w_trace w ++ [EvPoolGet b]) (with_pool p w)).

(** [ctrl.bufferPool.Put(b)] *)
Definition bufferPool_Put (b : ByteBuffer) : M unit :=
  fun w =>
    (tt, with_trace (w_trace w ++ [EvPoolPut b])
           (with_pool (pool_Put b (w_pool w)) w)).

(** [ctrl.ingester.Put(pi)] *)
Definition ingesterPut (pi : PutInput Key) : M (option error) :=
  fun w =>
    let (err, s) := ingester_Put pi (w_storage w) in
    (err, with_trace (w_trace w ++ [EvIngesterPut pi]) (with_storage s w)).

(** Modelled from the spec: [ctrl.statsInc] is not in the file; the spec has
    it increment the counter of the given name. *)
Definition statsInc (name : string) : M unit :=
  fun w =>
    (tt, with_trace (w_trace w ++ [EvStatsInc name])
           (with_stats (<[name := S (default 0%nat (w_stats w !! name))]> (w_stats w)) w)).

(** Modelled from the spec: [ctrl.appStats.Add(hashString(app))] is not in
    the file; the spec has a per-application counter keyed by the name's
    hash, kept here as the set of names added. *)
Definition appStats_Add (app : string) : M unit :=
  fun w =>
    (tt, with_trace (w_trace w ++ [EvAppStatsAdd app])
           (with_appStats ({[app]} ∪ w_appStats w) w)).

(** The three response helpers of the controller, recorded as calls. *)
Definition writeInvalidParameterError (err : error) : M unit :=
  emit (EvWriteInvalidParameterError err).

Definition writeError (status : Z) (err : error) (msg : string) : M unit :=
  emit (EvWriteError status err msg).

Definition writeInternalServerError (err : error) (msg : string) : M unit :=
  emit (EvWriteInternalServerError err msg).

(** ** Parser wrappers *)

Definition convertFunc : Type := bytes -> Emission.
Definition convertFuncBuf : Type := bytes -> bytes -> Emission.
Definition convertFuncReader : Type :=
  bytes -> list Tree -> (TreePtr * option error) * list Tree.

Definition parserFunc : Type :=
  bytes -> bytes -> list Tree -> (TreePtr * option error) * list Tree.

(** [tree.New()]: a new tree at the next free address. *)
Definition treeNew (h : list Tree) : TreePtr * list Tree :=
  (treeAt (length h), h ++ [tree_New]).

(** [t.Insert(k, v)] through the pointer. *)
Definition treeInsertAt (t : TreePtr) (k : bytes) (v : Z) (h : list Tree) : list Tree :=
  match t with
  | nilTree => h
  | treeAt l => alter (tree_Insert k v) l h
  end.

Definition treeInsert (t : TreePtr) : bytes -> Z -> list Tree -> list Tree :=
  fun k v => treeInsertAt t k (uint64 v).

(** A callback decoder's run against the callback it was given. *)
Definition runCallbacks (e : Emission) (cb : bytes -> Z -> list Tree -> list Tree)
    (h : list Tree) : option error * list Tree :=
  (returned e, fold_left (fun h' kv => cb kv.1 kv.2 h') (delivered e) h).

Definition wrapConvertFunction (f : convertFunc) : parserFunc :=
  fun r _ h =>
    let (t, h1) := treeNew h in
    let (err, h2) := runCallbacks (f r) (treeInsert t) h1 in
    ((t, err), h2).

Definition wrapConvertFunctionBuf (f : convertFuncBuf) : parserFunc :=
  fun r tmpBuf h =>
    let (t, h1) := treeNew h in
    let (err, h2) := runCallbacks (f r tmpBuf) (treeInsert t) h1 in
    ((t, err), h2).

Definition wrapConvertFunctionReader (f : convertFuncReader) : parserFunc :=
  fun r _ h => f r h.

(** ** Parameter resolution *)

Record ingestParams := {
  ip_parserFunc : option parserFunc;
  ip_storageKey : option Key;
  ip_spyName : string;
  ip_sampleRate : Z;
  ip_units : string;
  ip_aggregationType : string;
  ip_modifiers : list string;
  ip_from : Time;
  ip_until : Time;
}.

(** [var ip ingestParams] *)
Definition zero_ingestParams : ingestParams :=
  {| ip_parserFunc := None; ip_storageKey := None; ip_spyName := "";
     ip_sampleRate := 0; ip_units := ""; ip_aggregationType := "";
     ip_modifiers := []; ip_from := 0; ip_until := 0 |}.

Definition set_parserFunc (x : option parserFunc) (ip : ingestParams) :=
  {| ip_parserFunc := x; ip_storageKey := ip_storageKey ip;
     ip_spyName := ip_spyName ip; ip_sampleRate := ip_sampleRate ip;
     ip_units := ip_units ip; ip_aggregationType := ip_aggregationType ip;
     ip_modifiers := ip_modifiers ip; ip_from := ip_from ip;
     ip_until := ip_until ip |}.

Definition set_storageKey (x : option Key) (ip : ingestParams) :=
  {| ip_parserFunc := ip_parserFunc ip; ip_storageKey := x;
     ip_spyName := ip_spyName ip; ip_sampleRate := ip_sampleRate ip;
     ip_units := ip_units ip; ip_aggregationType := ip_aggregationType ip;
     ip_modifiers := ip_modifiers ip; ip_from := ip_from ip;
     ip_until := ip_until ip |}.

Definition set_spyName (x : string) (ip : ingestParams) :=
  {| ip_parserFunc := ip_parserFunc ip; ip_storageKey := ip_storageKey ip;
     ip_spyName := x; ip_sampleRate := ip_sampleRate ip;
     ip_units := ip_units ip; ip_aggregationType := ip_aggregationType ip;
     ip_modifiers := ip_modifiers ip; ip_from := ip_from ip;
     ip_until := ip_until ip |}.

Definition set_sampleRate (x : Z) (ip : ingestParams) :=
  {| ip_parserFunc := ip_parserFunc ip; ip_storageKey := ip_storageKey ip;
     ip_spyName := ip_spyName ip; ip_sampleRate := x;
     ip_units := ip_units ip; ip_aggregationType := ip_aggregationType ip;
     ip_modifiers := ip_modifiers ip; ip_from := ip_from ip;
     ip_until := ip_until ip |}.

Definition set_units (x : string) (ip : ingestParams) :=
  {| ip_parserFunc := ip_parserFunc ip; ip_storageKey := ip_storageKey ip;
     ip_spyName := ip_spyName ip; ip_sampleRate := ip_sampleRate ip;
     ip_units := x; ip_aggregationType := ip_aggregationType ip;
     ip_modifiers := ip_modifiers ip; ip_from := ip_from ip;
     ip_until := ip_until ip |}.

Definition set_aggregationType (x : string) (ip : ingestParams) :=
  {| ip_parserFunc := ip_parserFunc ip; ip_storageKey := ip_storageKey ip;
     ip_spyName := ip_spyName ip; ip_sampleRate := ip_sampleRate ip;
     ip_units := ip_units ip; ip_aggregationType := x;
     ip_modifiers := ip_modifiers ip; ip_from := ip_from ip;
     ip_until := ip_until ip |}.

Definition set_from (x : Time) (ip : ingestParams) :=
  {| ip_parserFunc := ip_parserFunc ip; ip_storageKey := ip_storageKey ip;
     ip_spyName := ip_spyName ip; ip_sampleRate := ip_sampleRate ip;
     ip_units := ip_units ip; ip_aggregationType := ip_aggregationType ip;
     ip_modifiers := ip_modifiers ip; ip_from := x;
     ip_until := ip_until ip |}.

Definition set_until (x : Time) (ip : ingestParams) :=
  {| ip_parserFunc := ip_parserFunc ip; ip_storageKey := ip_storageKey ip;
     ip_spyName := ip_spyName ip; ip_sampleRate := ip_sampleRate ip;
     ip_units := ip_units ip; ip_aggregationType := ip_aggregationType ip;
     ip_modifiers := ip_modifiers ip; ip_from := ip_from ip;
     ip_until := x |}.

(** The [switch] on the format and the content type, for any four branch
    values: the cases are tried in order and the first that holds wins. *)
Definition switchFormat {A} (format contentType : string)
    (onTree onTrie onLines onDefault : A) : A :=
  if bool_decide (format = "tree")
     || bool_decide (contentType = "binary/octet-stream+tree") then onTree
  else if bool_decide (format = "trie")
     || bool_decide (contentType = "binary/octet-stream+trie") then onTrie
  else if bool_decide (format = "lines") then onLines
  else onDefault.

Definition ingestParamsFromRequest (r : Request) (ip : ingestParams)
    : M (option error * ingestParams) :=
  let q := Query r in
  let format := Get q "format" in
  let contentType := Get (Header r) "Content-Type" in
  let ip := set_parserFunc (Some (switchFormat format contentType
              (wrapConvertFunctionReader DeserializeV1NoDict)
              (wrapConvertFunctionBuf ParseTrieBuf)
              (wrapConvertFunction ParseIndividualLines)
              (wrapConvertFunction ParseGroups))) ip in
  let* from :=
    (let qt := Get q "from" in
     if bool_decide (qt <> "") then attimeParse qt else Now) in
  let ip := set_from from ip in
  let* until :=
    (let qt := Get q "until" in
     if bool_decide (qt <> "") then attimeParse qt else Now) in
  let ip := set_until until ip in
  let* ip :=
    (let sr := Get q "sampleRate" in
     if bool_decide (sr <> "") then
       match Atoi sr with
       | inr err =>
           let* _ := logInvalidSampleRate err sr in
           ret (set_sampleRate DefaultSampleRate ip)
       | inl sampleRate => ret (set_sampleRate (uint32 sampleRate) ip)
       end
     else ret (set_sampleRate DefaultSampleRate ip)) in
  let ip :=
    (let sn := Get q "spyName" in
     if bool_decide (sn <> "") then set_spyName sn ip
     else set_spyName "unknown" ip) in
  let ip :=
    (let u := Get q "units" in
     if bool_decide (u <> "") then set_units u ip
     else set_units "samples" ip) in
  let ip :=
    (let at_ := Get q "aggregationType" in
     if bool_decide (at_ <> "") then set_aggregationType at_ ip
     else set_aggregationType "sum" ip) in
  match ParseKey (Get q "name") with
  | inr err => ret (Some (Errorf_name err), set_storageKey None ip)
  | inl k => ret (None, set_storageKey (Some k) ip)
  end.

(** ** The handler *)

(** [ip.parserFunc(r.Body, tmpBuf.B)] *)
Definition callParser (pf : parserFunc) (body tmpBuf : bytes)
    : M (TreePtr * option error) :=
  fun w =>
    let (res, h) := pf body tmpBuf (w_trees w) in
    (res, with_trace (w_trace w ++ [EvParse body tmpBuf]) (with_trees h w)).

(** The [return] statement by which the handler leaves; [ExitPanic] stands
    for a nil call or a nil dereference. *)
Inductive Exit :=
| ExitInvalidParameter
| ExitUnprocessable
| ExitStorageError
| ExitOK
| ExitPanic.

#[global] Instance Exit_eq_dec : EqDecision Exit.
Proof. solve_decision. Defined.

Definition leave (x : Exit) (m : M unit) : M Exit :=
  let* _ := m in ret x.

Definition ingestHandler (r : Request) : M Exit :=
  let ip := zero_ingestParams in
  let* (err, ip) := ingestParamsFromRequest r ip in
  match err with
  | Some err => leave ExitInvalidParameter (writeInvalidParameterError err)
  | None =>
      let* tmpBuf := bufferPool_Get in
      match ip_parserFunc ip with
      | None => leave ExitPanic (emit (EvPanic "nil func"))
      | Some pf =>
          let* (t, err) := callParser pf (Body r) (B tmpBuf) in
          let* _ := bufferPool_Put tmpBuf in
          match err with
          | Some err =>
              leave ExitUnprocessable
                (writeError StatusUnprocessableEntity err
                   "error happened while parsing request body")
          | None =>
              let* err := ingesterPut
                {| StartTime := ip_from ip;
                   EndTime := ip_until ip;
                   PKey := ip_storageKey ip;
                   Val := t;
                   SpyName := ip_spyName ip;
                   SampleRate := ip_sampleRate ip;
                   Units := ip_units ip;
                   AggregationType := ip_aggregationType ip |} in
              match err with
              | Some err =>
                  leave ExitStorageError
                    (writeInternalServerError err
                       "error happened while ingesting data")
              | None =>
                  let* _ := statsInc "ingest" in
                  let* _ := statsInc ("ingest:" +:+ ip_spyName ip) in
                  match ip_storageKey ip with
                  | None => leave ExitPanic (emit (EvPanic "nil pointer dereference"))
                  | Some k => leave ExitOK (appStats_Add (AppName k))
                  end
              end
          end
      end
  end.

(** ** The steps of one request, read off the initial world

    What each step of [ingestHandler] is given and what it answers, for a
    request [r] arriving in the world [w]. *)

(** Step 1: the resolver's error and the resolved parameters. *)
Definition resolved (r : Request) (w : World) : option error * ingestParams :=
  (ingestParamsFromRequest r zero_ingestParams w).1.

(** Step 2: the buffer the pool hands out. *)
Definition acquired (w : World) : ByteBuffer := (pool_Get (w_pool w)).1.

(** Step 3: the answer of the resolved parser on the body. *)
Definition decoded (r : Request) (w : World) : (TreePtr * option error) * list Tree :=
  match ip_parserFunc (resolved r w).2 with
  | Some pf => pf (Body r) (B (acquired w)) (w_trees w)
  | None => ((nilTree, None), w_trees w)
  end.

(** Step 5: the write request. *)
Definition writeRequest (r : Request) (w : World) : PutInput Key :=
  let ip := (resolved r w).2 in
  {| StartTime := ip_from ip;
     EndTime := ip_until ip;
     PKey := ip_storageKey ip;
     Val := (decoded r w).1.1;
     SpyName := ip_spyName ip;
     SampleRate := ip_sampleRate ip;
     Units := ip_units ip;
     AggregationType := ip_aggregationType ip |}.

(** Step 6: the ingester's answer. *)
Definition submitted (r : Request) (w : World) : option error * Storage :=
  ingester_Put (writeRequest r w) (w_storage w).

(** The two messages of the handler's error responses. *)
Definition parseMsg : string := "error happened while parsing request body".
Definition ingestMsg : string := "error happened while ingesting data".

(** The events of a request that reaches the decoder, up to the release. *)
Definition bufferEvents (r : Request) (w : World) : list Event :=
  let b := acquired w in
  [EvPoolGet b; EvParse (Body r) (B b); EvPoolPut b].

(** The world once the buffer is back in the pool. *)
Definition released (r : Request) (w : World) : World :=
  with_pool (pool_Put (acquired w) (pool_Get (w_pool w)).2)
    (with_trees (decoded r w).2
       (ingestParamsFromRequest r zero_ingestParams w).2).

(** The events the handler adds to the trace for this request. *)
Definition newEvents (r : Request) (w : World) : list Event :=
  drop (length (w_trace w)) (w_trace (ingestHandler r w).2).

(** How many events of a trace satisfy a test. *)
Definition countEvents (p : Event -> bool) (tr : list Event) : nat :=
  length (List.filter p tr).

(** The tree after the delivered pairs are inserted in order, each count
    converted as [treeInsert] converts it. *)
Definition insertAll (pairs : list (bytes * Z)) (t : Tree) : Tree :=
  fold_left (fun t' kv => tree_Insert kv.1 (uint64 kv.2) t') pairs t.

(** The log entry of the resolver, if any. *)
Definition sampleRateLog (r : Request) : list Event :=
  let sr := Get (Query r) "sampleRate" in
  if bool_decide (sr <> "") then
    match Atoi sr with
    | inr err => [EvLogError "err" err ("invalid sample rate: " +:+ sr)]
    | inl _ => []
    end
  else [].

(** ** Vocabulary of the claims *)

(** The four concrete decoders behind their wrappers. *)
Inductive DecoderKind := DecTree | DecTrie | DecLines | DecGroups.

#[global] Instance DecoderKind_eq_dec : EqDecision DecoderKind.
Proof. solve_decision. Defined.

Definition parserOf (d : DecoderKind) : parserFunc :=
  match d with
  | DecTree => wrapConvertFunctionReader DeserializeV1NoDict
  | DecTrie => wrapConvertFunctionBuf ParseTrieBuf
  | DecLines => wrapConvertFunction ParseIndividualLines
  | DecGroups => wrapConvertFunction ParseGroups
  end.

(** Events that involve the scratch buffer. *)
Definition usesBuffer (e : Event) : bool :=
  match e with
  | EvPoolGet _ | EvPoolPut _ | EvParse _ _ => true
  | _ => false
  end.

(** The trace without the events that involve the scratch buffer. *)
Definition withoutBuffer (tr : list Event) : list Event :=
  List.filter (fun e => negb (usesBuffer e)) tr.

Definition isPoolGet (e : Event) : bool :=
  match e with EvPoolGet _ => true | _ => false end.

Definition isPoolPut (e : Event) : bool :=
  match e with EvPoolPut _ => true | _ => false end.

Definition isIngesterPut (e : Event) : bool :=
  match e with EvIngesterPut _ => true | _ => false end.

Definition isCounter (e : Event) : bool :=
  match e with EvStatsInc _ | EvAppStatsAdd _ => true | _ => false end.

Definition isLog (e : Event) : bool :=
  match e with EvLogError _ _ _ => true | _ => false end.

(** The class of an HTTP status code. *)
Inductive StatusClass := ClientError | ServerError | OtherStatus.

Definition classOfStatus (status : Z) : StatusClass :=
  if (400 <=? status) && (status <? 500) then ClientError
  else if (500 <=? status) && (status <? 600) then ServerError
  else OtherStatus.

(** Modelled from the spec: the controller's [writeInvalidParameterError],
    [writeInternalServerError] and [writeError] are not in the file; the spec
    has the first answer with a client-error status and the second with a
    server-error status, and [writeError] is called with the status itself. *)
Definition responseClass (e : Event) : option StatusClass :=
  match e with
  | EvWriteInvalidParameterError _ => Some ClientError
  | EvWriteError status _ _ => Some (classOfStatus status)
  | EvWriteInternalServerError _ _ => Some ServerError
  | _ => None
  end.

(** [ctrl.statsInc] seen on the counters alone. *)
Definition incremented (name : string) (m : gmap string nat) : gmap string nat :=
  <[name := S (default 0%nat (m !! name))]> m.

End Ingest.

(** The decoder names of the [switch], without the functions. *)
Definition selectDecoder (format contentType : string) : DecoderKind :=
  switchFormat format contentType DecTree DecTrie DecLines DecGroups.

(** ** The selection rule as the specification words it

    An ordered list of rules; the first whose condition holds decides, and
    the group decoder is the default. *)
Definition selectionRules : list ((string -> string -> bool) * DecoderKind) :=
  [ (fun format contentType =>
       bool_decide (format = "tree")
       || bool_decide (contentType = "binary/octet-stream+tree"), DecTree);
    (fun format contentType =>
       bool_decide (format = "trie")
       || bool_decide (contentType = "binary/octet-stream+trie"), DecTrie);
    (fun format _ => bool_decide (format = "lines"), DecLines) ].

Fixpoint firstMatch (rules : list ((string -> string -> bool) * DecoderKind))
    (format contentType : string) (dflt : DecoderKind) : DecoderKind :=
  match rules with
  | [] => dflt
  | (cond, d) :: rest =>
      if cond format contentType then d
      else firstMatch rest format contentType dflt
  end.

Definition documentedDecoder (format contentType : string) : DecoderKind :=
  firstMatch selectionRules format contentType DecGroups.

(** The decoder a [format] value names, and the one a content type names. *)
Definition formatNames (format : string) : option DecoderKind :=
  if bool_decide (format = "tree") then Some DecTree
  else if bool_decide (format = "trie") then Some DecTrie
  else if bool_decide (format = "lines") then Some DecLines
  else None.

Definition contentTypeNames (contentType : string) : option DecoderKind :=
  if bool_decide (contentType = "binary/octet-stream+tree") then Some DecTree
  else if bool_decide (contentType = "binary/octet-stream+trie") then Some DecTrie
  else None.

(** ** Sample collaborators

    A small concrete set of collaborators on which the definitions run:
    keys are application names and the empty name is rejected, a tree is
    the list of its insertions, the pool is a stack of free buffers, and the
    storage is either closed or the list of accepted write requests.  The
    group decoder delivers one pair and then fails on a body that starts
    with a zero byte. *)
Module Sample.

Definition sampleParseKey (name : string) : string + error :=
  if bool_decide (name = "") then inr (errorString "application name is required")
  else inl name.

Definition sampleDeserialize (body : bytes) (h : list (list (bytes * Z)))
    : (TreePtr * option error) * list (list (bytes * Z)) :=
  match body with
  | [] => ((nilTree, Some (errorString "EOF")), h)
  | _ => ((treeAt (length h), None), h ++ [[(body, 1)]])
  end.

Definition sampleTrie (body tmpBuf : bytes) : Emission :=
  {| delivered := [(body ++ tmpBuf, 1)]; returned := None |}.

Definition sampleLines (body : bytes) : Emission :=
  {| delivered := [(body, 5)]; returned := None |}.

Definition sampleGroups (body : bytes) : Emission :=
  match body with
  | Byte.x00 :: _ =>
      {| delivered := [(body, 2)];
         returned := Some (errorString "unexpected byte") |}
  | _ => {| delivered := [(body, 1); (body, -1)]; returned := None |}
  end.

Definition samplePoolGet (p : list ByteBuffer) : ByteBuffer * list ByteBuffer :=
  match p with
  | [] => ({| B := [] |}, [])
  | b :: p' => (b, p')
  end.

Definition sampleIngesterPut (pi : PutInput string)
    (s : option (list (PutInput string)))
    : option error * option (list (PutInput string)) :=
  match s with
  | None => (Some (errorString "storage is closed"), None)
  | Some l => (None, Some (l ++ [pi]))
  end.

#[local] Instance collaborators : Collaborators := {|
  Key := string;
  ParseKey := sampleParseKey;
  AppName := fun k => k;
  Tree := list (bytes * Z);
  tree_New := [];
  tree_Insert := fun k v t => t ++ [(k, v)];
  DeserializeV1NoDict := sampleDeserialize;
  ParseTrieBuf := sampleTrie;
  ParseIndividualLines := sampleLines;
  ParseGroups := sampleGroups;
  attime_Parse := fun _ now => now - 3600;
  time_Now := fun n => 1000 + Z.of_nat n;
  DefaultSampleRate := 100;
  PoolSt := list ByteBuffer;
  pool_Get := samplePoolGet;
  pool_Put := fun b p => b :: p;
  Storage := option (list (PutInput string));
  ingester_Put := sampleIngesterPut;
|}.

(** A world with one free buffer and an open, empty storage. *)
Definition world0 : World :=
  {| w_ticks := 0; w_trees := []; w_pool := [ {| B := [Byte.x2a] |} ];
     w_storage := Some []; w_stats := ∅; w_appStats := ∅; w_trace := [] |}.

(** The same world with the storage closed. *)
Definition worldClosed : World := with_storage None world0.

Definition query (kvs : list (string * string)) : Values :=
  list_to_map (prod_map id (fun v => [v]) <$> kvs).

Definition request (kvs : list (string * string)) (contentType : string)
    (body : bytes) : Request :=
  {| Query := query kvs;
     Header := if bool_decide (contentType = "") then ∅
               else {[ "Content-Type" := [contentType] ]};
     Body := body |}.

(** Sample requests. *)
Definition body1 : bytes := [Byte.x61; Byte.x3b; Byte.x62].

Definition reqLines : Request :=
  request [("name", "app.name"); ("format", "lines")] "" body1.

Definition reqBadRate : Request :=
  request [("name", "app.name"); ("sampleRate", "notanumber")] "" body1.

Definition reqEmptyRate : Request :=
  request [("name", "app.name"); ("sampleRate", "")] "" body1.

Definition reqZeroRate : Request :=
  request [("name", "app.name"); ("sampleRate", "0")] "" body1.

Definition reqNegativeRate : Request :=
  request [("name", "app.name"); ("sampleRate", "-1")] "" body1.

Definition reqNoName : Request :=
  request [("format", "lines"); ("sampleRate", "x")] "" body1.

Definition reqTrieVsTree : Request :=
  request [("name", "app.name"); ("format", "trie")]
    "binary/octet-stream+tree" body1.

Definition reqBadBody : Request :=
  request [("name", "app.name")] "" [Byte.x00; Byte.x61].

End Sample.

(** ** Further vocabulary: responses, decoder runs, requests in sequence *)

Section Serving.
Context `{C : Collaborators}.

(** Events that write a response. *)
Definition isResponse (e : Event) : bool :=
  match e with
  | EvWriteInvalidParameterError _ | EvWriteError _ _ _
  | EvWriteInternalServerError _ _ => true
  | _ => false
  end.

Definition isPanic (e : Event) : bool :=
  match e with EvPanic _ => true | _ => false end.

(** The run of the callback decoder behind a selection on a body and a
    buffer; the tree decoder has no callback. *)
Definition emissionOf (d : DecoderKind) (body tmpBuf : bytes) : option Emission :=
  match d with
  | DecTree => None
  | DecTrie => Some (ParseTrieBuf body tmpBuf)
  | DecLines => Some (ParseIndividualLines body)
  | DecGroups => Some (ParseGroups body)
  end.

(** Requests handled one after the other: the exits in order and the world
    left by the last one. *)
Fixpoint serve (rs : list Request) (w : World) : list Exit * World :=
  match rs with
  | [] => ([], w)
  | r :: rs' =>
      let (x, w1) := ingestHandler r w in
      let (xs, w2) := serve rs' w1 in
      (x :: xs, w2)
  end.

(** How many requests of a run left through the last statement. *)
Definition countOK (xs : list Exit) : nat :=
  length (List.filter (fun x => bool_decide (x = ExitOK)) xs).

End Serving.

(** * Properties *)

Section IngestFacts.
Context `{C : Collaborators}.

(** ** The resolver *)

Lemma switchFormat_map {A R} (g : A -> R) format contentType a b c d :
  g (switchFormat format contentType a b c d)
  = switchFormat format contentType (g a) (g b) (g c) (g d).
Proof.
  unfold switchFormat.
  destruct (_ || _); [done|]. destruct (_ || _); [done|]. by destruct (bool_decide _).
Qed.

(** Case analysis on the branches of the resolver that touch the world or
    decide the error. *)
Ltac resolve_world_cases :=
  unfold ingestParamsFromRequest, sampleRateLog, bind, ret, attimeParse, Now,
    logInvalidSampleRate, emit;
  destruct (bool_decide (Get _ "from" <> ""));
  destruct (bool_decide (Get _ "until" <> ""));
  destruct (bool_decide (Get _ "sampleRate" <> ""));
  repeat match goal with
         | |- context [Atoi ?s] => destruct (Atoi s)
         | |- context [ParseKey ?s] => destruct (ParseKey s)
         end;
  cbn.

(** Case analysis on every branch, for the fields of the result. *)
Ltac resolve_cases :=
  unfold ingestParamsFromRequest, sampleRateLog, bind, ret, attimeParse, Now,
    logInvalidSampleRate, emit;
  repeat case_bool_decide;
  repeat match goal with
         | |- context [Atoi ?s] => destruct (Atoi s)
         | |- context [ParseKey ?s] => destruct (ParseKey s)
         end;
  cbn.

(** The resolver reads the clock twice and may log; it touches nothing else. *)
Lemma resolve_frame r ip w :
  let w' := (ingestParamsFromRequest r ip w).2 in
  w_trees w' = w_trees w /\ w_pool w' = w_pool w /\ w_storage w' = w_storage w
  /\ w_stats w' = w_stats w /\ w_appStats w' = w_appStats w
  /\ w_trace w' = w_trace w ++ sampleRateLog r.
Proof.
  resolve_world_cases; rewrite ?app_nil_r; done.
Qed.

Lemma resolve_error r ip w :
  (ingestParamsFromRequest r ip w).1.1
  = match ParseKey (Get (Query r) "name") with
    | inr e => Some (Errorf_name e)
    | inl _ => None
    end.
Proof. resolve_world_cases; done. Qed.

Lemma resolve_storageKey r ip w :
  ip_storageKey (ingestParamsFromRequest r ip w).1.2
  = match ParseKey (Get (Query r) "name") with
    | inr _ => None
    | inl k => Some k
    end.
Proof. resolve_cases; done. Qed.

Lemma resolve_parserFunc r ip w :
  ip_parserFunc (ingestParamsFromRequest r ip w).1.2
  = Some (parserOf (selectDecoder (Get (Query r) "format")
                                  (Get (Header r) "Content-Type"))).
Proof.
  unfold selectDecoder. rewrite (switchFormat_map parserOf).
  resolve_cases; done.
Qed.

Lemma resolve_sampleRate r ip w :
  ip_sampleRate (ingestParamsFromRequest r ip w).1.2
  = let sr := Get (Query r) "sampleRate" in
    if bool_decide (sr = "") then DefaultSampleRate
    else match Atoi sr with
         | inr _ => DefaultSampleRate
         | inl v => uint32 v
         end.
Proof. resolve_cases; done. Qed.

(** ** The handler, path by path *)

(** Reduce the projections of the worlds built by the setters. *)
Ltac world_simpl :=
  cbn [fst snd with_ticks with_trees with_pool with_storage with_stats
       with_appStats with_trace w_ticks w_trees w_pool w_storage w_stats
       w_appStats w_trace] in *.

Lemma ingestHandler_run r w :
  ingestHandler r w =
    match ParseKey (Get (Query r) "name") with
    | inr e =>
        (ExitInvalidParameter,
         with_trace (w_trace w ++ sampleRateLog r
                       ++ [EvWriteInvalidParameterError (Errorf_name e)])
           (ingestParamsFromRequest r zero_ingestParams w).2)
    | inl k =>
        let pre := w_trace w ++ sampleRateLog r ++ bufferEvents r w in
        match (decoded r w).1.2 with
        | Some e =>
            (ExitUnprocessable,
             with_trace (pre ++ [EvWriteError StatusUnprocessableEntity e parseMsg])
               (released r w))
        | None =>
            let w3 := with_storage (submitted r w).2 (released r w) in
            match (submitted r w).1 with
            | Some e =>
                (ExitStorageError,
                 with_trace (pre ++ [EvIngesterPut (writeRequest r w);
                                     EvWriteInternalServerError e ingestMsg]) w3)
            | None =>
                let spy := ip_spyName (resolved r w).2 in
                (ExitOK,
                 with_trace (pre ++ [EvIngesterPut (writeRequest r w);
                                     EvStatsInc "ingest";
                                     EvStatsInc ("ingest:" +:+ spy);
                                     EvAppStatsAdd (AppName k)])
                   (with_appStats ({[AppName k]} ∪ w_appStats w)
                      (with_stats (incremented ("ingest:" +:+ spy)
                                     (incremented "ingest" (w_stats w))) w3)))
            end
        end
    end.
Proof.
  unfold ingestHandler, released, bufferEvents, submitted, writeRequest, decoded,
    resolved, acquired, bind.
  pose proof (resolve_error r zero_ingestParams w) as Herr.
  pose proof (resolve_storageKey r zero_ingestParams w) as Hkey.
  pose proof (resolve_parserFunc r zero_ingestParams w) as Hpf.
  destruct (resolve_frame r zero_ingestParams w) as (Ht & Hp & Hs & Hst & Ha & Htr).
  destruct (ingestParamsFromRequest r zero_ingestParams w) as [[err ip] w1].
  cbn [fst snd] in *. subst err. rewrite Hpf, Hkey.
  destruct (ParseKey (Get (Query r) "name")) as [k|e]; cycle 1.
  { unfold leave, writeInvalidParameterError, emit, bind, ret.
    by rewrite Htr, <- app_assoc. }
  unfold bufferPool_Get. rewrite Hp.
  destruct (pool_Get (w_pool w)) as [b p].
  unfold callParser; world_simpl. rewrite Ht.
  destruct (parserOf _ (Body r) (B b) (w_trees w)) as [[t derr] h].
  unfold bufferPool_Put; world_simpl.
  destruct derr as [e|].
  { unfold leave, writeError, emit, bind, ret; world_simpl.
    rewrite Htr, <- !app_assoc. done. }
  unfold ingesterPut; world_simpl. rewrite Hs.
  destruct (ingester_Put _ (w_storage w)) as [[e|] s].
  { unfold leave, writeInternalServerError, emit, bind, ret; world_simpl.
    rewrite Htr, <- !app_assoc. done. }
  unfold leave, appStats_Add, statsInc, incremented, bind, ret; world_simpl.
  rewrite Htr, Hst, Ha, <- !app_assoc. done.
Qed.

(** ** Decoder selection *)

Lemma selectDecoder_documented format contentType :
  selectDecoder format contentType = documentedDecoder format contentType.
Proof. reflexivity. Qed.

Lemma documentedDecoder_cases format contentType :
  documentedDecoder format contentType
  = match formatNames format, contentTypeNames contentType with
    | Some DecTree, _ | _, Some DecTree => DecTree
    | Some DecTrie, _ | _, Some DecTrie => DecTrie
    | Some DecLines, _ => DecLines
    | _, _ => DecGroups
    end.
Proof.
  unfold documentedDecoder, formatNames, contentTypeNames; cbn [firstMatch selectionRules].
  repeat case_bool_decide; subst; try discriminate; reflexivity.
Qed.

(** C2: whatever the [format] parameter and the Content-Type header are, the
    resolver installs the wrapper of the decoder that first-match over the
    documented ordered rules picks: tree, then trie, then lines, and the
    group decoder for everything else, absent or unrecognised selectors
    included. *)
Theorem decoder_selection_first_match (r : Request) (ip : ingestParams) (w : World) :
  let format := Get (Query r) "format" in
  let contentType := Get (Header r) "Content-Type" in
  ip_parserFunc (ingestParamsFromRequest r ip w).1.2
    = Some (parserOf (documentedDecoder format contentType))
  /\ documentedDecoder format contentType
     = match formatNames format, contentTypeNames contentType with
       | Some DecTree, _ | _, Some DecTree => DecTree
       | Some DecTrie, _ | _, Some DecTrie => DecTrie
       | Some DecLines, _ => DecLines
       | _, _ => DecGroups
       end.
Proof.
  intros format contentType. split.
  - rewrite resolve_parserFunc. by rewrite selectDecoder_documented.
  - apply documentedDecoder_cases.
Qed.

(** C5, as amended: the selection follows the order of the switch, not
    "format first".  [format=tree] always selects the tree decoder; failing
    that, a Content-Type that names a decoder selects it, even against a
    [format] that names another one; [format] decides when the Content-Type
    names none, and the group decoder is the default when neither names
    one. *)
Theorem decoder_selection_precedence (r : Request) (ip : ingestParams) (w : World) :
  let format := Get (Query r) "format" in
  let contentType := Get (Header r) "Content-Type" in
  ip_parserFunc (ingestParamsFromRequest r ip w).1.2
    = Some (parserOf (selectDecoder format contentType))
  /\ selectDecoder format contentType
     = match formatNames format, contentTypeNames contentType with
       | Some DecTree, _ => DecTree
       | _, Some d => d
       | Some d, None => d
       | None, None => DecGroups
       end.
Proof.
  intros format contentType. split; [apply resolve_parserFunc|].
  rewrite selectDecoder_documented, documentedDecoder_cases.
  unfold formatNames, contentTypeNames.
  repeat case_bool_decide; reflexivity.
Qed.

(** ** The sample rate *)

Lemma Atoi_empty : Atoi "" = inr (numError "Atoi" "" ErrSyntax).
Proof. reflexivity. Qed.

(** C4, as amended: a non-empty [sampleRate] value that does not parse as an
    integer never rejects the request (the resolver's error is decided by
    the name alone), its parse error is logged, and the resolved sample rate
    is the system default; an absent or empty value also yields the default,
    and then nothing is logged. *)
Theorem malformed_sampleRate_defaults (r : Request) (ip : ingestParams) (w : World)
    (e : error) :
  let sr := Get (Query r) "sampleRate" in
  Atoi sr = inr e ->
  let res := ingestParamsFromRequest r ip w in
  ip_sampleRate res.1.2 = DefaultSampleRate
  /\ res.1.1 = match ParseKey (Get (Query r) "name") with
               | inr e' => Some (Errorf_name e')
               | inl _ => None
               end
  /\ w_trace res.2
     = w_trace w ++ (if bool_decide (sr = "") then []
                     else [EvLogError "err" e ("invalid sample rate: " +:+ sr)]).
Proof.
  intros sr Hsr res. subst res sr. split; [|split].
  - rewrite resolve_sampleRate. cbv zeta. rewrite Hsr. by case_bool_decide.
  - apply resolve_error.
  - destruct (resolve_frame r ip w) as (_ & _ & _ & _ & _ & ->).
    unfold sampleRateLog. rewrite Hsr.
    by repeat case_bool_decide.
Qed.

(** C6, as amended: a supplied value that parses as an integer is carried
    through, reduced modulo 2^32, whether or not it is positive; the system
    default replaces only an absent, empty or unparsable value.  With a
    system default that is itself a [uint32], as its use in the assignment
    requires, the resolved sample rate is an unsigned 32-bit value for every
    request. *)
Theorem sampleRate_carried_through (r : Request) (ip : ingestParams) (w : World) :
  let rate := ip_sampleRate (ingestParamsFromRequest r ip w).1.2 in
  match Atoi (Get (Query r) "sampleRate") with
  | inl v => rate = v mod 2 ^ 32 /\ 0 <= rate < 2 ^ 32
  | inr _ => rate = DefaultSampleRate
  end
  /\ (0 <= DefaultSampleRate < 2 ^ 32 -> 0 <= rate < 2 ^ 32).
Proof.
  intros rate. subst rate. rewrite resolve_sampleRate. cbv zeta.
  case_bool_decide as Hsr.
  - rewrite Hsr, Atoi_empty. split; [reflexivity | done].
  - destruct (Atoi _) as [v|]; [|split; [reflexivity | done]].
    unfold uint32.
    assert (0 <= v mod 2 ^ 32 < 2 ^ 32) by (apply Z.mod_pos_bound; lia).
    split; [split|]; done.
Qed.

(** ** The parser wrappers *)

(** Inserting through a pointer to the last tree of the heap. *)
Lemma treeInsert_last (h : list Tree) (t : Tree) (k : bytes) (v : Z) :
  treeInsert (treeAt (length h)) k v (h ++ [t])
  = h ++ [tree_Insert k (uint64 v) t].
Proof.
  unfold treeInsert, treeInsertAt.
  replace (length h) with (length h + 0)%nat by lia.
  by rewrite alter_app_r.
Qed.

(** The callbacks of one run, all on the tree allocated last. *)
Lemma runCallbacks_fresh (e : Emission) (h : list Tree) (t : Tree) :
  runCallbacks e (treeInsert (treeAt (length h))) (h ++ [t])
  = (returned e, h ++ [insertAll (delivered e) t]).
Proof.
  unfold runCallbacks, insertAll. f_equal.
  generalize dependent t.
  induction (delivered e) as [|[k v] pairs IH]; intros t; [done|].
  cbn [fold_left fst snd]. rewrite treeInsert_last. apply IH.
Qed.

Lemma wrapConvertFunctionBuf_run (f : convertFuncBuf) (r tmpBuf : bytes)
    (h : list Tree) :
  wrapConvertFunctionBuf f r tmpBuf h
  = ((treeAt (length h), returned (f r tmpBuf)),
     h ++ [insertAll (delivered (f r tmpBuf)) tree_New]).
Proof.
  unfold wrapConvertFunctionBuf, treeNew. by rewrite runCallbacks_fresh.
Qed.

Lemma wrapConvertFunction_run (f : convertFunc) (r tmpBuf : bytes)
    (h : list Tree) :
  wrapConvertFunction f r tmpBuf h
  = ((treeAt (length h), returned (f r)),
     h ++ [insertAll (delivered (f r)) tree_New]).
Proof.
  unfold wrapConvertFunction, treeNew. by rewrite runCallbacks_fresh.
Qed.

Lemma fresh_address (h : list Tree) (t : Tree) :
  h !! length h = None /\ (h ++ [t]) !! length h = Some t.
Proof.
  split; [by apply lookup_ge_None|].
  rewrite lookup_app_r by lia. by rewrite Nat.sub_diag.
Qed.

(** C7: each wrapper has the canonical shape.  The wrapper of a decoder that
    takes a buffer allocates a new empty tree at an unused address, hands the
    caller's buffer to the decoder, inserts every delivered pair into that
    tree and returns it with the decoder's error, leaving the other trees as
    they were; the wrapper of a decoder without buffer does the same and its
    answer does not depend on the buffer; the wrapper of a direct decoder
    returns exactly the decoder's answer on the stream. *)
Theorem wrappers_normalize (fb : convertFuncBuf) (f : convertFunc)
    (fr : convertFuncReader) (r tmpBuf tmpBuf' : bytes) (h : list Tree) :
  (wrapConvertFunctionBuf fb r tmpBuf h
   = ((treeAt (length h), returned (fb r tmpBuf)),
      h ++ [insertAll (delivered (fb r tmpBuf)) tree_New]))
  /\ (wrapConvertFunction f r tmpBuf h
      = ((treeAt (length h), returned (f r)),
         h ++ [insertAll (delivered (f r)) tree_New]))
  /\ wrapConvertFunction f r tmpBuf h = wrapConvertFunction f r tmpBuf' h
  /\ h !! length h = None
  /\ insertAll [] tree_New = tree_New
  /\ wrapConvertFunctionReader fr r tmpBuf h = fr r h.
Proof.
  split; [apply wrapConvertFunctionBuf_run|].
  split; [apply wrapConvertFunction_run|].
  split; [by rewrite !wrapConvertFunction_run|].
  split; [apply (fresh_address h tree_New)|].
  split; reflexivity.
Qed.

(** C10: when the decoder behind a callback wrapper returns an error, the
    wrapper still returns, next to that error, a non-nil pointer to a tree
    allocated by this call, which holds every pair the decoder delivered
    before it failed. *)
Theorem callback_wrappers_return_partial_tree (fb : convertFuncBuf)
    (f : convertFunc) (r tmpBuf : bytes) (h : list Tree) (e e' : error) :
  returned (fb r tmpBuf) = Some e ->
  returned (f r) = Some e' ->
  let resb := wrapConvertFunctionBuf fb r tmpBuf h in
  let res := wrapConvertFunction f r tmpBuf h in
  (resb.1 = (treeAt (length h), Some e)
   /\ resb.2 !! length h = Some (insertAll (delivered (fb r tmpBuf)) tree_New))
  /\ (res.1 = (treeAt (length h), Some e')
      /\ res.2 !! length h = Some (insertAll (delivered (f r)) tree_New))
  /\ treeAt (length h) <> nilTree
  /\ h !! length h = None.
Proof.
  intros Hb Hf resb res. subst resb res.
  rewrite wrapConvertFunctionBuf_run, wrapConvertFunction_run, Hb, Hf.
  cbn [fst snd].
  pose proof (fresh_address h (insertAll (delivered (fb r tmpBuf)) tree_New)) as [Hn Hb'].
  pose proof (fresh_address h (insertAll (delivered (f r)) tree_New)) as [_ Hf'].
  done.
Qed.

(** ** What a request leaves behind *)

(** The exit taken, from the answers of the three steps. *)
Lemma handler_exit r w :
  (ingestHandler r w).1
  = match ParseKey (Get (Query r) "name") with
    | inr _ => ExitInvalidParameter
    | inl _ =>
        match (decoded r w).1.2 with
        | Some _ => ExitUnprocessable
        | None =>
            match (submitted r w).1 with
            | Some _ => ExitStorageError
            | None => ExitOK
            end
        end
    end.
Proof.
  rewrite ingestHandler_run.
  destruct (ParseKey _); [|done].
  destruct (decoded r w).1.2; [done|]. by destruct (submitted r w).1.
Qed.

(** The events added, from the answers of the three steps. *)
Lemma newEvents_run r w :
  newEvents r w
  = match ParseKey (Get (Query r) "name") with
    | inr e => sampleRateLog r ++ [EvWriteInvalidParameterError (Errorf_name e)]
    | inl k =>
        sampleRateLog r ++ bufferEvents r w ++
        match (decoded r w).1.2 with
        | Some e => [EvWriteError StatusUnprocessableEntity e parseMsg]
        | None =>
            EvIngesterPut (writeRequest r w) ::
            match (submitted r w).1 with
            | Some e => [EvWriteInternalServerError e ingestMsg]
            | None =>
                [EvStatsInc "ingest";
                 EvStatsInc ("ingest:" +:+ ip_spyName (resolved r w).2);
                 EvAppStatsAdd (AppName k)]
            end
        end
    end.
Proof.
  unfold newEvents. rewrite ingestHandler_run.
  destruct (ParseKey _) as [k|e]; cbv zeta.
  - destruct (decoded r w).1.2; [|destruct (submitted r w).1];
      world_simpl; rewrite <- ?app_assoc; by rewrite drop_app_length.
  - world_simpl. by rewrite drop_app_length.
Qed.

Lemma trace_newEvents r w :
  w_trace (ingestHandler r w).2 = w_trace w ++ newEvents r w.
Proof.
  rewrite newEvents_run, ingestHandler_run.
  destruct (ParseKey _) as [k|e]; cbv zeta.
  - destruct (decoded r w).1.2; [|destruct (submitted r w).1];
      world_simpl; by rewrite <- ?app_assoc.
  - by world_simpl.
Qed.

(** The state left behind, from the answers of the three steps. *)
Lemma handler_state r w :
  let w' := (ingestHandler r w).2 in
  match ParseKey (Get (Query r) "name") with
  | inr _ =>
      w_trees w' = w_trees w /\ w_pool w' = w_pool w
      /\ w_storage w' = w_storage w /\ w_stats w' = w_stats w
      /\ w_appStats w' = w_appStats w
  | inl k =>
      w_trees w' = (decoded r w).2
      /\ w_pool w' = pool_Put (acquired w) (pool_Get (w_pool w)).2
      /\ match (decoded r w).1.2 with
         | Some _ =>
             w_storage w' = w_storage w /\ w_stats w' = w_stats w
             /\ w_appStats w' = w_appStats w
         | None =>
             w_storage w' = (submitted r w).2
             /\ match (submitted r w).1 with
                | Some _ => w_stats w' = w_stats w /\ w_appStats w' = w_appStats w
                | None =>
                    w_stats w'
                    = incremented ("ingest:" +:+ ip_spyName (resolved r w).2)
                        (incremented "ingest" (w_stats w))
                    /\ w_appStats w' = {[AppName k]} ∪ w_appStats w
                end
         end
  end.
Proof.
  cbv zeta. rewrite ingestHandler_run.
  destruct (resolve_frame r zero_ingestParams w) as (Ht & Hp & Hs & Hst & Ha & _).
  destruct (ParseKey _) as [k|e]; cbv zeta.
  - unfold released.
    destruct (decoded r w).1.2; [|destruct (submitted r w).1]; world_simpl; done.
  - by world_simpl.
Qed.

Lemma sampleRateLog_is_log r :
  Forall (fun ev => isLog ev = true) (sampleRateLog r).
Proof.
  unfold sampleRateLog. case_bool_decide; [|constructor].
  destruct (Atoi _); repeat constructor.
Qed.

(** C3: when the key parser rejects the [name] parameter, the resolver
    returns the parser's error wrapped under the prefix "name: ", the handler
    leaves through the invalid-parameter response, a client error, with that
    error, and apart from the resolver's own log entry nothing else happens:
    no buffer is acquired, no decoder runs, nothing is submitted, no counter
    moves.  No other parameter can make resolution fail: it succeeds
    whenever the name is accepted. *)
Theorem rejected_name_aborts (r : Request) (w : World) (e : error) :
  ParseKey (Get (Query r) "name") = inr e ->
  (resolved r w).1 = Some (Errorf_name e)
  /\ Error (Errorf_name e) = "name: " +:+ Error e
  /\ Unwrap (Errorf_name e) = Some e
  /\ (ingestHandler r w).1 = ExitInvalidParameter
  /\ newEvents r w
     = sampleRateLog r ++ [EvWriteInvalidParameterError (Errorf_name e)]
  /\ responseClass (EvWriteInvalidParameterError (Errorf_name e)) = Some ClientError
  /\ Forall (fun ev => usesBuffer ev = false /\ isIngesterPut ev = false
                       /\ isCounter ev = false) (newEvents r w)
  /\ (let w' := (ingestHandler r w).2 in
      w_trees w' = w_trees w /\ w_pool w' = w_pool w
      /\ w_storage w' = w_storage w /\ w_stats w' = w_stats w
      /\ w_appStats w' = w_appStats w)
  /\ (forall (r' : Request) (ip' : ingestParams) (w' : World) (k : Key),
        ParseKey (Get (Query r') "name") = inl k ->
        (ingestParamsFromRequest r' ip' w').1.1 = None).
Proof.
  intros Hname.
  pose proof (handler_state r w) as Hstate.
  pose proof (newEvents_run r w) as Hev.
  pose proof (handler_exit r w) as Hexit.
  rewrite Hname in Hstate, Hev, Hexit.
  split. { unfold resolved. rewrite resolve_error. by rewrite Hname. }
  do 5 (split; [done|]).
  split.
  { rewrite Hev. apply Forall_app. split.
    - eapply Forall_impl; [apply sampleRateLog_is_log|]. by intros [] Hlog.
    - by repeat constructor. }
  split; [exact Hstate|].
  intros r' ip' w' k Hk. rewrite resolve_error. by rewrite Hk.
Qed.

(** C8: when the parameters resolve and the selected decoder fails on the
    body, the handler leaves through an error response whose status is 422,
    unprocessable entity, a client error, with the decoder's error and a
    fixed message; the buffer has been released before that, and no write
    request reaches the ingester: the storage is as it was. *)
Theorem decode_failure_unprocessable (r : Request) (w : World) (e : error) :
  (resolved r w).1 = None ->
  (decoded r w).1.2 = Some e ->
  (ingestHandler r w).1 = ExitUnprocessable
  /\ newEvents r w
     = sampleRateLog r ++ bufferEvents r w
       ++ [EvWriteError StatusUnprocessableEntity e parseMsg]
  /\ StatusUnprocessableEntity = 422
  /\ responseClass (EvWriteError StatusUnprocessableEntity e parseMsg)
     = Some ClientError
  /\ parseMsg = "error happened while parsing request body"
  /\ Forall (fun ev => isIngesterPut ev = false /\ isCounter ev = false)
       (newEvents r w)
  /\ w_storage (ingestHandler r w).2 = w_storage w.
Proof.
  intros Hres Hdec.
  pose proof (handler_state r w) as Hstate.
  pose proof (newEvents_run r w) as Hev.
  pose proof (handler_exit r w) as Hexit.
  unfold resolved in Hres. rewrite resolve_error in Hres.
  destruct (ParseKey _) as [k|]; [|done].
  rewrite Hdec in Hstate, Hev, Hexit.
  do 5 (split; [done|]).
  split; [|apply Hstate].
  rewrite Hev. rewrite !Forall_app. split; [|split].
  - eapply Forall_impl; [apply sampleRateLog_is_log|]. by intros [] Hlog.
  - by repeat constructor.
  - by repeat constructor.
Qed.

(** ** Counters *)

Lemma ingest_prefixed_ne (spy : string) : "ingest:" +:+ spy <> "ingest".
Proof. discriminate. Qed.

Lemma incremented_lookup (name : string) (m : gmap string nat) :
  incremented name m !! name = Some (S (default 0%nat (m !! name))).
Proof. unfold incremented. by rewrite lookup_insert_eq. Qed.

Lemma incremented_twice_ne (spy : string) (m : gmap string nat) :
  incremented ("ingest:" +:+ spy) (incremented "ingest" m) <> m.
Proof.
  intros Heq.
  assert (incremented ("ingest:" +:+ spy) (incremented "ingest" m) !! "ingest"
          = m !! "ingest") as Hl by (by rewrite Heq).
  unfold incremented at 1 in Hl.
  rewrite lookup_insert_ne in Hl by apply ingest_prefixed_ne.
  rewrite incremented_lookup in Hl.
  destruct (m !! "ingest") as [n|]; cbn in Hl; [|discriminate].
  injection Hl. lia.
Qed.

Lemma sampleRateLog_no_counter r :
  List.filter isCounter (sampleRateLog r) = [].
Proof.
  unfold sampleRateLog. case_bool_decide; [|done]. by destruct (Atoi _).
Qed.

(** C9: the handler leaves through its last statement exactly when the
    parameters resolve, the decoder succeeds and the ingester accepts the
    write request.  In that case the counter "ingest" and the counter of the
    agent name go up by one and the application name of the storage key is
    added to the per-application counter; on a failure of any of the three
    steps no counter is touched. *)
Theorem counters_iff_success (r : Request) (w : World) :
  let w' := (ingestHandler r w).2 in
  let spy := ip_spyName (resolved r w).2 in
  let ok := (resolved r w).1 = None /\ (decoded r w).1.2 = None
            /\ (submitted r w).1 = None in
  ((ingestHandler r w).1 = ExitOK <-> ok)
  /\ (ok ->
      exists k, ip_storageKey (resolved r w).2 = Some k
        /\ w_stats w' = incremented ("ingest:" +:+ spy) (incremented "ingest" (w_stats w))
        /\ w_appStats w' = {[AppName k]} ∪ w_appStats w
        /\ List.filter isCounter (newEvents r w)
           = [EvStatsInc "ingest"; EvStatsInc ("ingest:" +:+ spy);
              EvAppStatsAdd (AppName k)])
  /\ (~ ok ->
      w_stats w' = w_stats w /\ w_appStats w' = w_appStats w
      /\ List.filter isCounter (newEvents r w) = [])
  /\ (w_stats w' <> w_stats w <-> ok).
Proof.
  cbv zeta.
  pose proof (handler_state r w) as Hstate.
  pose proof (newEvents_run r w) as Hev.
  pose proof (handler_exit r w) as Hexit.
  cbv zeta in Hstate.
  assert ((resolved r w).1
          = match ParseKey (Get (Query r) "name") with
            | inr e => Some (Errorf_name e) | inl _ => None end) as Hres
    by (unfold resolved; apply resolve_error).
  assert (ip_storageKey (resolved r w).2
          = match ParseKey (Get (Query r) "name") with
            | inr _ => None | inl k => Some k end) as Hkey
    by (unfold resolved; apply resolve_storageKey).
  rewrite Hres, Hexit, Hev, Hkey. clear Hres Hexit Hev Hkey.
  destruct (ParseKey _) as [k|e0].
  2:{ destruct Hstate as (_ & _ & _ & Hst & Ha).
      rewrite !List.filter_app, sampleRateLog_no_counter.
      split; [split; [done | by intros [? _]]|].
      split; [by intros [? _]|].
      split; [done|]. rewrite Hst. split; [done | by intros [? _]]. }
  destruct Hstate as (_ & _ & Hstate).
  destruct (decoded r w).1.2 as [e1|].
  { destruct Hstate as (_ & Hst & Ha).
    rewrite !List.filter_app, sampleRateLog_no_counter.
    split; [split; [done | by intros (_ & ? & _)]|].
    split; [by intros (_ & ? & _)|].
    split; [done|]. rewrite Hst. split; [done | by intros (_ & ? & _)]. }
  destruct Hstate as (_ & Hstate).
  destruct (submitted r w).1 as [e2|].
  { destruct Hstate as (Hst & Ha).
    rewrite !List.filter_app, sampleRateLog_no_counter.
    split; [split; [done | by intros (_ & _ & ?)]|].
    split; [by intros (_ & _ & ?)|].
    split; [done|]. rewrite Hst. split; [done | by intros (_ & _ & ?)]. }
  destruct Hstate as (Hst & Ha).
  rewrite !List.filter_app, sampleRateLog_no_counter.
  split; [done|].
  split; [intros _; by exists k|].
  split; [intros Hno; by destruct Hno|].
  rewrite Hst. split; [done|]. intros _. apply incremented_twice_ne.
Qed.

(** ** The scratch buffer *)

(** The resolver does not look at the pool. *)
Lemma resolve_pool_irrelevant r ip w p :
  (ingestParamsFromRequest r ip (with_pool p w)).1
  = (ingestParamsFromRequest r ip w).1.
Proof. resolve_world_cases; reflexivity. Qed.

Lemma sampleRateLog_no_buffer r :
  Forall (fun ev => usesBuffer ev = false) (sampleRateLog r).
Proof.
  eapply Forall_impl; [apply sampleRateLog_is_log|]. by intros [] Hlog.
Qed.

Lemma withoutBuffer_app tr1 tr2 :
  withoutBuffer (tr1 ++ tr2) = withoutBuffer tr1 ++ withoutBuffer tr2.
Proof. apply List.filter_app. Qed.

Lemma countEvents_app p tr1 tr2 :
  countEvents p (tr1 ++ tr2) = (countEvents p tr1 + countEvents p tr2)%nat.
Proof. unfold countEvents. by rewrite List.filter_app, length_app. Qed.

Lemma countEvents_log (p : Event -> bool) r :
  (forall f v m, p (EvLogError f v m) = false) ->
  countEvents p (sampleRateLog r) = 0%nat.
Proof.
  intros Hp. unfold sampleRateLog, countEvents.
  case_bool_decide; [|done]. destruct (Atoi _); [done|].
  cbn [List.filter]. by rewrite Hp.
Qed.

(** C1: a request whose parameters do not resolve acquires no buffer.  Every
    other request takes one buffer from the pool and gives that same buffer
    back exactly once, right after the decoder returns, on each of the three
    exits: before the unprocessable response, before the write request is
    submitted when the storage then fails, and before it on success.
    Nothing after the release involves the buffer: whichever buffer the pool
    hands out, the same decoding leads to the same write request, the same
    later events and the same final storage and counters. *)
Theorem buffer_released_exactly_once (r : Request) (w : World) (p2 : PoolSt) :
  let tr := newEvents r w in
  let b := acquired w in
  countEvents isPoolGet tr = countEvents isPoolPut tr
  /\ match (resolved r w).1 with
     | Some _ =>
         Forall (fun ev => usesBuffer ev = false) tr
         /\ w_pool (ingestHandler r w).2 = w_pool w
     | None =>
         countEvents isPoolGet tr = 1%nat
         /\ countEvents isPoolPut tr = 1%nat
         /\ w_pool (ingestHandler r w).2 = pool_Put b (pool_Get (w_pool w)).2
         /\ exists rest,
              tr = sampleRateLog r
                   ++ [EvPoolGet b; EvParse (Body r) (B b); EvPoolPut b] ++ rest
              /\ Forall (fun ev => usesBuffer ev = false) (sampleRateLog r ++ rest)
              /\ match (ingestHandler r w).1 with
                 | ExitUnprocessable =>
                     exists e, (decoded r w).1.2 = Some e
                       /\ rest = [EvWriteError StatusUnprocessableEntity e parseMsg]
                 | ExitStorageError =>
                     exists e, (decoded r w).1.2 = None
                       /\ (submitted r w).1 = Some e
                       /\ rest = [EvIngesterPut (writeRequest r w);
                                  EvWriteInternalServerError e ingestMsg]
                 | ExitOK =>
                     exists k, (decoded r w).1.2 = None
                       /\ (submitted r w).1 = None
                       /\ rest = [EvIngesterPut (writeRequest r w);
                                  EvStatsInc "ingest";
                                  EvStatsInc ("ingest:" +:+ ip_spyName (resolved r w).2);
                                  EvAppStatsAdd (AppName k)]
                 | ExitInvalidParameter | ExitPanic => False
                 end
     end
  /\ (decoded r (with_pool p2 w) = decoded r w ->
      writeRequest r (with_pool p2 w) = writeRequest r w
      /\ withoutBuffer (newEvents r (with_pool p2 w)) = withoutBuffer (newEvents r w)
      /\ (ingestHandler r (with_pool p2 w)).1 = (ingestHandler r w).1
      /\ w_storage (ingestHandler r (with_pool p2 w)).2
         = w_storage (ingestHandler r w).2
      /\ w_stats (ingestHandler r (with_pool p2 w)).2
         = w_stats (ingestHandler r w).2
      /\ w_appStats (ingestHandler r (with_pool p2 w)).2
         = w_appStats (ingestHandler r w).2).
Proof.
  cbv zeta.
  assert ((resolved r w).1
          = match ParseKey (Get (Query r) "name") with
            | inr e => Some (Errorf_name e) | inl _ => None end) as Hres
    by (unfold resolved; apply resolve_error).
  assert (resolved r (with_pool p2 w) = resolved r w) as Hres2
    by apply resolve_pool_irrelevant.
  pose proof (handler_state r w) as Hstate.
  pose proof (handler_state r (with_pool p2 w)) as Hstate2.
  pose proof (handler_exit r w) as Hexit.
  pose proof (handler_exit r (with_pool p2 w)) as Hexit2.
  cbv zeta in Hstate, Hstate2.
  rewrite Hres, Hexit, Hexit2, !newEvents_run. clear Hres Hexit Hexit2.
  assert (forall ww, List.filter (fun e => negb (usesBuffer e)) (bufferEvents r ww) = [])
    as Hbuf by reflexivity.
  pose proof (sampleRateLog_no_buffer r) as Hlog.
  destruct (ParseKey _) as [k|e0].
  2:{ split.
      { rewrite !countEvents_app, !countEvents_log by done. reflexivity. }
      split.
      { split; [|apply Hstate].
        apply Forall_app. split; [done | by repeat constructor]. }
      intros Hdec. unfold writeRequest. rewrite Hres2, Hdec.
      destruct Hstate as (_ & _ & -> & -> & ->).
      by destruct Hstate2 as (_ & _ & -> & -> & ->). }
  destruct Hstate as (_ & Hpool & Hstate).
  destruct Hstate2 as (_ & _ & Hstate2).
  rewrite !countEvents_app, !countEvents_log by done.
  split; [|split].
  - unfold bufferEvents.
    destruct (decoded r w).1.2; [|destruct (submitted r w).1]; reflexivity.
  - unfold bufferEvents.
    split; [destruct (decoded r w).1.2; [|destruct (submitted r w).1]; reflexivity|].
    split; [destruct (decoded r w).1.2; [|destruct (submitted r w).1]; reflexivity|].
    split; [exact Hpool|].
    eexists. split; [reflexivity|].
    destruct (decoded r w).1.2 as [e1|]; [|destruct (submitted r w).1 as [e2|]].
    + split; [|by exists e1].
      apply Forall_app. split; [done | by repeat constructor].
    + split; [|by exists e2].
      apply Forall_app. split; [done | by repeat constructor].
    + split; [|by exists k].
      apply Forall_app. split; [done | by repeat constructor].
  - intros Hdec.
    assert (writeRequest r (with_pool p2 w) = writeRequest r w) as Hwr
      by (unfold writeRequest; by rewrite Hres2, Hdec).
    assert (submitted r (with_pool p2 w) = submitted r w) as Hsub
      by (unfold submitted; by rewrite Hwr).
    rewrite Hdec, Hsub, Hwr, Hres2 in *.
    split; [done|].
    rewrite !withoutBuffer_app. unfold withoutBuffer at 2 5. rewrite !Hbuf.
    split; [done|]. split; [done|].
    destruct (decoded r w).1.2 as [e1|].
    { destruct Hstate as (-> & -> & ->). by destruct Hstate2 as (-> & -> & ->). }
    destruct Hstate as (-> & Hstate). destruct Hstate2 as (-> & Hstate2).
    destruct (submitted r w).1 as [e2|].
    { destruct Hstate as (-> & ->). by destruct Hstate2 as (-> & ->). }
    destruct Hstate as (-> & ->). by destruct Hstate2 as (-> & ->).
Qed.

(** ** Further properties of the resolver *)

Lemma resolve_spyName r ip w :
  ip_spyName (ingestParamsFromRequest r ip w).1.2
  = let sn := Get (Query r) "spyName" in
    if bool_decide (sn = "") then "unknown" else sn.
Proof. resolve_cases; done. Qed.

Lemma resolve_units r ip w :
  ip_units (ingestParamsFromRequest r ip w).1.2
  = let u := Get (Query r) "units" in
    if bool_decide (u = "") then "samples" else u.
Proof. resolve_cases; done. Qed.

Lemma resolve_aggregationType r ip w :
  ip_aggregationType (ingestParamsFromRequest r ip w).1.2
  = let a := Get (Query r) "aggregationType" in
    if bool_decide (a = "") then "sum" else a.
Proof. resolve_cases; done. Qed.

Lemma resolve_modifiers r ip w :
  ip_modifiers (ingestParamsFromRequest r ip w).1.2 = ip_modifiers ip.
Proof. resolve_cases; done. Qed.

(** Whatever the request, the input parameters and the world, the resolver
    leaves a parser installed and non-empty agent name, units and
    aggregation type; the storage key is set exactly when no error is
    returned; the modifiers are the ones it was given. *)
Theorem resolver_populates_every_field (r : Request) (ip : ingestParams) (w : World) :
  let res := ingestParamsFromRequest r ip w in
  is_Some (ip_parserFunc res.1.2)
  /\ ip_spyName res.1.2 <> ""
  /\ ip_units res.1.2 <> ""
  /\ ip_aggregationType res.1.2 <> ""
  /\ (res.1.1 = None <-> is_Some (ip_storageKey res.1.2))
  /\ ip_modifiers res.1.2 = ip_modifiers ip.
Proof.
  cbv zeta.
  rewrite resolve_parserFunc, resolve_spyName, resolve_units,
    resolve_aggregationType, resolve_error, resolve_storageKey, resolve_modifiers.
  cbv zeta.
  split; [by eexists|].
  split; [by case_bool_decide|].
  split; [by case_bool_decide|].
  split; [by case_bool_decide|].
  split; [|done].
  destruct (ParseKey _); split; intros H; try done; by destruct H.
Qed.

(** The resolver assigns every field but the modifiers: started from two
    parameter records with the same modifiers, it returns the same error,
    the same parameters and the same world. *)
Theorem resolver_overwrites_input (r : Request) (ip1 ip2 : ingestParams) (w : World) :
  ip_modifiers ip1 = ip_modifiers ip2 ->
  ingestParamsFromRequest r ip1 w = ingestParamsFromRequest r ip2 w.
Proof.
  intros Hm. destruct ip1, ip2. cbn in Hm. subst.
  resolve_cases; reflexivity.
Qed.

(** Which requests reach which decoder: the tree decoder by [format=tree] or
    its content type; the trie decoder by [format=trie] or its content type
    when the tree decoder is not selected; the line decoder by
    [format=lines] only, and only when no content type selects tree or trie;
    the group decoder in every remaining case. *)
Theorem decoder_selection_inverse (format contentType : string) :
  let treeCT := contentType = "binary/octet-stream+tree" in
  let trieCT := contentType = "binary/octet-stream+trie" in
  (selectDecoder format contentType = DecTree <-> format = "tree" \/ treeCT)
  /\ (selectDecoder format contentType = DecTrie
      <-> (format = "trie" \/ trieCT) /\ format <> "tree" /\ ~ treeCT)
  /\ (selectDecoder format contentType = DecLines
      <-> format = "lines" /\ ~ treeCT /\ ~ trieCT)
  /\ (selectDecoder format contentType = DecGroups
      <-> format <> "tree" /\ format <> "trie" /\ format <> "lines"
          /\ ~ treeCT /\ ~ trieCT).
Proof.
  cbv zeta. unfold selectDecoder, switchFormat.
  repeat case_bool_decide; cbn [orb]; subst;
    repeat split; intros; try discriminate; try tauto;
    try (intuition discriminate).
Qed.

Lemma Atoi_range (s : string) (v : Z) :
  Atoi s = inl v -> s <> "" /\ minInt <= v <= maxInt.
Proof.
  unfold Atoi. destruct s as [|c rest]; [discriminate|].
  cbv zeta.
  destruct (if _ || _ then rest else String c rest); [discriminate|].
  destruct (parseDigits _ 0) as [n|kind]; [|discriminate].
  destruct (_ && _) eqn:Hr; [|discriminate].
  intros [= <-]. split; [discriminate|].
  apply andb_true_iff in Hr as [H1 H2]. lia.
Qed.

(** A [sampleRate] that parses as an integer is stored unchanged exactly
    when it lies in the range of a [uint32]; every other integer is stored
    as a different value of that range.  Nothing is logged for it. *)
Theorem sampleRate_unchanged_iff_in_range (r : Request) (ip : ingestParams)
    (w : World) (v : Z) :
  Atoi (Get (Query r) "sampleRate") = inl v ->
  let res := ingestParamsFromRequest r ip w in
  minInt <= v <= maxInt
  /\ (ip_sampleRate res.1.2 = v <-> 0 <= v < 2 ^ 32)
  /\ 0 <= ip_sampleRate res.1.2 < 2 ^ 32
  /\ w_trace res.2 = w_trace w.
Proof.
  intros Hv res. subst res.
  destruct (Atoi_range _ _ Hv) as [Hne Hrange].
  split; [done|].
  rewrite resolve_sampleRate. cbv zeta. rewrite Hv.
  rewrite bool_decide_eq_false_2 by done. unfold uint32.
  assert (0 <= v mod 2 ^ 32 < 2 ^ 32) as Hmod by (apply Z.mod_pos_bound; lia).
  split; [|split; [done|]].
  - split; [intros <-; done | intros Hin; by apply Z.mod_small].
  - destruct (resolve_frame r ip w) as (_ & _ & _ & _ & _ & ->).
    unfold sampleRateLog. rewrite Hv.
    case_bool_decide; by rewrite app_nil_r.
Qed.

Lemma resolve_times r ip w :
  let res := ingestParamsFromRequest r ip w in
  ip_from res.1.2
  = (let qt := Get (Query r) "from" in
     if bool_decide (qt = "") then time_Now (w_ticks w)
     else attime_Parse qt (time_Now (w_ticks w)))
  /\ ip_until res.1.2
     = (let qt := Get (Query r) "until" in
        if bool_decide (qt = "") then time_Now (S (w_ticks w))
        else attime_Parse qt (time_Now (S (w_ticks w))))
  /\ w_ticks res.2 = S (S (w_ticks w)).
Proof. resolve_cases; done. Qed.

(** Without [from] and [until], the window is two successive readings of the
    clock, the start being read first; the resolver compares the two with
    nothing, and the write request carries both as they are. *)
Theorem absent_time_window_is_now (r : Request) (w : World) :
  Get (Query r) "from" = "" ->
  Get (Query r) "until" = "" ->
  ip_from (resolved r w).2 = time_Now (w_ticks w)
  /\ ip_until (resolved r w).2 = time_Now (S (w_ticks w))
  /\ StartTime (writeRequest r w) = time_Now (w_ticks w)
  /\ EndTime (writeRequest r w) = time_Now (S (w_ticks w)).
Proof.
  intros Hf Hu.
  destruct (resolve_times r zero_ingestParams w) as (Hfrom & Huntil & _).
  cbv zeta in Hfrom, Huntil. rewrite Hf in Hfrom. rewrite Hu in Huntil.
  unfold writeRequest, resolved. cbn [StartTime EndTime].
  by rewrite Hfrom, Huntil.
Qed.

(** ** Further properties of the wrappers *)

(** The count a callback delivers is an [int]; the tree receives it as a
    [uint64]: unchanged when it is not negative, and raised by 2^64 when it
    is. *)
Theorem treeInsert_count_conversion (l : nat) (k : bytes) (v : Z) (h : list Tree) :
  minInt <= v <= maxInt ->
  treeInsert (treeAt l) k v h !! l
  = tree_Insert k (if v <? 0 then v + 2 ^ 64 else v) <$> h !! l.
Proof.
  intros Hv. unfold treeInsert, treeInsertAt. rewrite list_lookup_alter_eq.
  assert (uint64 v = if v <? 0 then v + 2 ^ 64 else v) as ->; [|done].
  unfold uint64, minInt, maxInt, intSize in *.
  destruct (Z.ltb_spec v 0).
  - symmetry. apply (Z.mod_unique_pos v (2 ^ 64) (-1)); lia.
  - apply Z.mod_small. lia.
Qed.

(** ** Further properties of the handler *)

Lemma filter_log (p : Event -> bool) r :
  (forall f v m, p (EvLogError f v m) = false) ->
  List.filter p (sampleRateLog r) = [].
Proof.
  intros Hp. unfold sampleRateLog.
  case_bool_decide; [|done]. destruct (Atoi _); [done|].
  cbn [List.filter]. by rewrite Hp.
Qed.

Lemma resolved_error r w :
  (resolved r w).1
  = match ParseKey (Get (Query r) "name") with
    | inr e => Some (Errorf_name e)
    | inl _ => None
    end.
Proof. unfold resolved. apply resolve_error. Qed.

(** When the name is accepted and the decoder succeeds, the handler calls the
    ingester once, with a write request that carries the parsed key, the
    pointer the decoder returned and the request's parameters as they came:
    the agent name, units and aggregation type unless empty, the sample
    rate as resolved. *)
Theorem write_request_carries_parameters (r : Request) (w : World) (k : Key) :
  ParseKey (Get (Query r) "name") = inl k ->
  (decoded r w).1.2 = None ->
  let q := Query r in
  List.filter isIngesterPut (newEvents r w)
  = [EvIngesterPut
       {| StartTime := ip_from (resolved r w).2;
          EndTime := ip_until (resolved r w).2;
          PKey := Some k;
          Val := (decoded r w).1.1;
          SpyName := if bool_decide (Get q "spyName" = "") then "unknown"
                     else Get q "spyName";
          SampleRate := if bool_decide (Get q "sampleRate" = "")
                        then DefaultSampleRate
                        else match Atoi (Get q "sampleRate") with
                             | inr _ => DefaultSampleRate
                             | inl v => uint32 v
                             end;
          Units := if bool_decide (Get q "units" = "") then "samples"
                   else Get q "units";
          AggregationType := if bool_decide (Get q "aggregationType" = "")
                             then "sum" else Get q "aggregationType" |}].
Proof.
  intros Hk Hdec q. subst q.
  rewrite newEvents_run, Hk, Hdec.
  rewrite !List.filter_app, filter_log by done.
  unfold writeRequest, resolved.
  rewrite resolve_storageKey, resolve_spyName, resolve_units,
    resolve_aggregationType, resolve_sampleRate, Hk.
  cbv zeta. unfold bufferEvents.
  by destruct (submitted r w).1.
Qed.

(** The ingester is called once when the parameters resolve and the decoder
    succeeds, and is not called otherwise; the storage is then what the
    ingester left, and otherwise what it was. *)
Theorem ingester_called_at_most_once (r : Request) (w : World) :
  match (resolved r w).1, (decoded r w).1.2 with
  | None, None =>
      countEvents isIngesterPut (newEvents r w) = 1%nat
      /\ w_storage (ingestHandler r w).2 = (submitted r w).2
  | _, _ =>
      countEvents isIngesterPut (newEvents r w) = 0%nat
      /\ w_storage (ingestHandler r w).2 = w_storage w
  end.
Proof.
  pose proof (handler_state r w) as Hstate. cbv zeta in Hstate.
  rewrite resolved_error, newEvents_run.
  destruct (ParseKey _) as [k|e0].
  - destruct Hstate as (_ & _ & Hstate).
    rewrite !countEvents_app, countEvents_log by done.
    destruct (decoded r w).1.2 as [e1|].
    + split; [reflexivity | apply Hstate].
    + split; [by destruct (submitted r w).1 | apply Hstate].
  - rewrite !countEvents_app, countEvents_log by done.
    split; [reflexivity | apply Hstate].
Qed.

(** A request that fails gets one response and a request that goes through
    gets none from the handler; the handler never calls a nil parser and
    never dereferences a nil key. *)
Theorem one_response_unless_ingested (r : Request) (w : World) :
  countEvents isResponse (newEvents r w)
  = (if bool_decide ((ingestHandler r w).1 = ExitOK) then 0 else 1)%nat
  /\ (ingestHandler r w).1 <> ExitPanic
  /\ countEvents isPanic (newEvents r w) = 0%nat.
Proof.
  rewrite handler_exit, newEvents_run.
  destruct (ParseKey _) as [k|e0];
    rewrite !countEvents_app, !countEvents_log by done.
  - destruct (decoded r w).1.2; [|destruct (submitted r w).1];
      repeat split; done.
  - repeat split; done.
Qed.

(** When the ingester refuses the write request, the handler answers with
    the internal-server-error response carrying the ingester's error, after
    the one call on the ingester; the storage is what the ingester left and
    the decoded tree stays where the decoder put it. *)
Theorem storage_failure_server_error (r : Request) (w : World) (e : error) :
  (resolved r w).1 = None ->
  (decoded r w).1.2 = None ->
  (submitted r w).1 = Some e ->
  (ingestHandler r w).1 = ExitStorageError
  /\ newEvents r w
     = sampleRateLog r ++ bufferEvents r w
       ++ [EvIngesterPut (writeRequest r w);
           EvWriteInternalServerError e ingestMsg]
  /\ ingestMsg = "error happened while ingesting data"
  /\ w_storage (ingestHandler r w).2 = (submitted r w).2
  /\ w_trees (ingestHandler r w).2 = (decoded r w).2.
Proof.
  intros Hres Hdec Hsub.
  pose proof (handler_state r w) as Hstate. cbv zeta in Hstate.
  rewrite resolved_error in Hres.
  rewrite handler_exit, newEvents_run.
  destruct (ParseKey _) as [k|]; [|done].
  rewrite Hdec, Hsub in *.
  destruct Hstate as (Ht & _ & Hs & _).
  done.
Qed.

(** A request whose name is accepted and which selects a callback decoder
    adds one tree to the heap, after the trees already there: the empty tree
    with every delivered pair inserted.  The decoder's answer and the write
    request point to it, and the request is unprocessable exactly when the
    decoder returned an error. *)
Theorem callback_request_builds_one_tree (r : Request) (w : World) (k : Key)
    (e : Emission) :
  ParseKey (Get (Query r) "name") = inl k ->
  emissionOf (selectDecoder (Get (Query r) "format")
                            (Get (Header r) "Content-Type"))
    (Body r) (B (acquired w)) = Some e ->
  w_trees (ingestHandler r w).2
    = w_trees w ++ [insertAll (delivered e) tree_New]
  /\ (decoded r w).1 = (treeAt (length (w_trees w)), returned e)
  /\ Val (writeRequest r w) = treeAt (length (w_trees w))
  /\ ((ingestHandler r w).1 = ExitUnprocessable <-> is_Some (returned e)).
Proof.
  intros Hk He.
  pose proof (handler_state r w) as Hstate. cbv zeta in Hstate.
  rewrite Hk in Hstate. destruct Hstate as (Ht & _).
  rewrite handler_exit, Hk, Ht. unfold writeRequest. cbn [Val].
  assert (decoded r w
          = ((treeAt (length (w_trees w)), returned e),
             w_trees w ++ [insertAll (delivered e) tree_New])) as ->.
  { unfold decoded, resolved. rewrite resolve_parserFunc.
    destruct (selectDecoder _ _); cbn [emissionOf parserOf] in *;
      try discriminate; injection He as <-.
    - apply wrapConvertFunctionBuf_run.
    - apply wrapConvertFunction_run.
    - apply wrapConvertFunction_run. }
  cbn [fst snd]. do 3 (split; [done|]).
  destruct (returned e); split; intros H; try done.
  by destruct (submitted r w).1.
Qed.

(** With a pool that is back as it was once the buffer just taken from it
    is put back, the handler leaves the pool as it found it, on every
    exit. *)
Theorem pool_restored (r : Request) (w : World) :
  pool_Put (pool_Get (w_pool w)).1 (pool_Get (w_pool w)).2 = w_pool w ->
  w_pool (ingestHandler r w).2 = w_pool w.
Proof.
  intros Hpool.
  pose proof (handler_state r w) as Hstate. cbv zeta in Hstate.
  destruct (ParseKey _).
  - destruct Hstate as (_ & -> & _). exact Hpool.
  - apply Hstate.
Qed.

(** ** Requests in sequence *)

Lemma handler_ingest_counter r w :
  default 0%nat (w_stats (ingestHandler r w).2 !! "ingest")
  = (default 0%nat (w_stats w !! "ingest")
     + if bool_decide ((ingestHandler r w).1 = ExitOK) then 1 else 0)%nat.
Proof.
  pose proof (handler_state r w) as Hstate. cbv zeta in Hstate.
  rewrite handler_exit.
  destruct (ParseKey _) as [k|e0].
  - destruct Hstate as (_ & _ & Hstate).
    destruct (decoded r w).1.2 as [e1|].
    + destruct Hstate as (_ & -> & _).
      rewrite bool_decide_eq_false_2 by done. lia.
    + destruct Hstate as (_ & Hstate).
      destruct (submitted r w).1 as [e2|].
      * destruct Hstate as (-> & _).
        rewrite bool_decide_eq_false_2 by done. lia.
      * destruct Hstate as (-> & _).
        unfold incremented at 1.
        rewrite lookup_insert_ne by apply ingest_prefixed_ne.
        rewrite incremented_lookup, bool_decide_eq_true_2 by done.
        cbn [from_option id]. lia.
  - destruct Hstate as (_ & _ & _ & -> & _).
    rewrite bool_decide_eq_false_2 by done. lia.
Qed.

Lemma handler_pool_events_balanced r w :
  countEvents isPoolGet (newEvents r w) = countEvents isPoolPut (newEvents r w)
  /\ (countEvents isPoolGet (newEvents r w) <= 1)%nat.
Proof.
  rewrite newEvents_run.
  destruct (ParseKey _) as [k|e0];
    rewrite !countEvents_app, !countEvents_log by done.
  - unfold bufferEvents.
    destruct (decoded r w).1.2; [|destruct (submitted r w).1];
      split; cbn; lia.
  - split; cbn; lia.
Qed.

(** After any sequence of requests handled one after the other, the counter
    "ingest" has gone up by the number of requests that went through, and
    there is one exit per request. *)
Theorem serve_counts_successes (rs : list Request) (w : World) :
  default 0%nat (w_stats (serve rs w).2 !! "ingest")
  = (default 0%nat (w_stats w !! "ingest") + countOK (serve rs w).1)%nat
  /\ length (serve rs w).1 = length rs.
Proof.
  revert w. induction rs as [|r rs IH]; intros w.
  - cbn. split; [lia | done].
  - cbn [serve].
    pose proof (handler_ingest_counter r w) as Hstep.
    destruct (ingestHandler r w) as [x w1]. cbn [fst snd] in Hstep.
    destruct (IH w1) as [IHc IHl].
    destruct (serve rs w1) as [xs w2]. cbn [fst snd] in *.
    split; [|cbn [length]; by rewrite IHl].
    rewrite IHc, Hstep. unfold countOK. cbn [List.filter].
    case_bool_decide; cbn [length]; lia.
Qed.

(** After any sequence of requests, the trace has grown by events among
    which the buffers taken from the pool and the buffers put back are as
    many, at most one per request. *)
Theorem serve_pool_balanced (rs : list Request) (w : World) :
  exists tr,
    w_trace (serve rs w).2 = w_trace w ++ tr
    /\ countEvents isPoolGet tr = countEvents isPoolPut tr
    /\ (countEvents isPoolGet tr <= length rs)%nat.
Proof.
  revert w. induction rs as [|r rs IH]; intros w.
  - exists []. cbn. rewrite app_nil_r. repeat split; lia.
  - cbn [serve].
    pose proof (trace_newEvents r w) as Htr.
    destruct (handler_pool_events_balanced r w) as [Hbal Hle].
    destruct (ingestHandler r w) as [x w1]. cbn [fst snd] in Htr.
    destruct (IH w1) as (tr & Htr' & Hbal' & Hle').
    destruct (serve rs w1) as [xs w2]. cbn [fst snd] in *.
    exists (newEvents r w ++ tr).
    rewrite Htr', Htr, <- app_assoc, !countEvents_app.
    repeat split; cbn [length]; lia.
Qed.

(** Only the trie decoder is given the scratch buffer: for a request that
    selects any other decoder, the answer of the decoder is the same
    whichever buffer the pool hands out. *)
Theorem buffer_reaches_trie_decoder_only (r : Request) (w : World) (p2 : PoolSt) :
  selectDecoder (Get (Query r) "format") (Get (Header r) "Content-Type")
    <> DecTrie ->
  decoded r (with_pool p2 w) = decoded r w.
Proof.
  intros Hsel. unfold decoded, resolved.
  rewrite resolve_pool_irrelevant, resolve_parserFunc.
  destruct (selectDecoder _ _); [reflexivity | done | reflexivity | reflexivity].
Qed.

End IngestFacts.

(** * Concrete runs on the sample collaborators *)

Section Runs.
Import Sample.
Existing Instance Sample.collaborators.

(** The request [?name=app.name&sampleRate=notanumber] resolves with the
    default rate. *)
Lemma malformed_sampleRate_defaults_witness :
  Atoi (Get (Query reqBadRate) "sampleRate")
    = inr (numError "Atoi" "notanumber" ErrSyntax)
  /\ ip_sampleRate (ingestParamsFromRequest reqBadRate zero_ingestParams world0).1.2
     = 100.
Proof.
  split; [vm_compute; reflexivity|].
  apply (malformed_sampleRate_defaults reqBadRate zero_ingestParams world0
           (numError "Atoi" "notanumber" ErrSyntax)).
  vm_compute; reflexivity.
Defined.

(** C4 as stated fails on a [sampleRate] that is present and empty: the value
    does not parse as an integer, yet the resolver logs nothing. *)
Lemma empty_sampleRate_not_logged :
  Query reqEmptyRate !! "sampleRate" = Some [""]
  /\ Atoi "" = inr (numError "Atoi" "" ErrSyntax)
  /\ (ingestParamsFromRequest reqEmptyRate zero_ingestParams world0).1.1 = None
  /\ countEvents isLog
       (w_trace (ingestParamsFromRequest reqEmptyRate zero_ingestParams world0).2)
     = 0%nat.
Proof. vm_compute. repeat split; reflexivity. Qed.

(** C5 as stated fails when [format] names the trie decoder and the
    Content-Type names the tree decoder: the tree decoder is selected. *)
Lemma format_trie_loses_to_tree_content_type :
  formatNames (Get (Query reqTrieVsTree) "format") = Some DecTrie
  /\ contentTypeNames (Get (Header reqTrieVsTree) "Content-Type") = Some DecTree
  /\ selectDecoder (Get (Query reqTrieVsTree) "format")
                   (Get (Header reqTrieVsTree) "Content-Type") = DecTree
  /\ DecTree <> DecTrie
  /\ ip_parserFunc (ingestParamsFromRequest reqTrieVsTree zero_ingestParams world0).1.2
     = Some (parserOf DecTree)
  /\ decoded reqTrieVsTree world0 = ((treeAt 0, None), [[(body1, 1)]])
  /\ parserOf DecTrie body1 [Byte.x2a] [] <> ((treeAt 0, None), [[(body1, 1)]]).
Proof. vm_compute. repeat split; try reflexivity; discriminate. Qed.

(** The sample default, 100, is a [uint32]: the rate resolved for a
    malformed value and for a negative one are both in range. *)
Lemma sampleRate_carried_through_witness :
  0 <= DefaultSampleRate < 2 ^ 32
  /\ 0 <= ip_sampleRate (ingestParamsFromRequest reqBadRate zero_ingestParams world0).1.2
     < 2 ^ 32
  /\ 0 <= ip_sampleRate (ingestParamsFromRequest reqNegativeRate zero_ingestParams world0).1.2
     < 2 ^ 32.
Proof.
  assert (0 <= DefaultSampleRate < 2 ^ 32) as Hd
    by (vm_compute; split; [discriminate | reflexivity]).
  split; [exact Hd|].
  split.
  - exact (proj2 (sampleRate_carried_through reqBadRate zero_ingestParams world0) Hd).
  - exact (proj2 (sampleRate_carried_through reqNegativeRate zero_ingestParams world0) Hd).
Defined.

(** C6 as stated fails on [sampleRate=0] and on [sampleRate=-1]: resolution
    succeeds and the value is carried through, as 0 and as 2^32 - 1, neither
    being the default. *)
Lemma nonpositive_sampleRate_not_defaulted :
  (ingestParamsFromRequest reqZeroRate zero_ingestParams world0).1.1 = None
  /\ ip_sampleRate (ingestParamsFromRequest reqZeroRate zero_ingestParams world0).1.2 = 0
  /\ (ingestParamsFromRequest reqNegativeRate zero_ingestParams world0).1.1 = None
  /\ ip_sampleRate (ingestParamsFromRequest reqNegativeRate zero_ingestParams world0).1.2
     = 4294967295
  /\ DefaultSampleRate = 100.
Proof. vm_compute. repeat split; reflexivity. Qed.

(** The sample group decoder delivers one pair and fails: the wrapper
    returns the tree with that pair and the error. *)
Lemma callback_wrappers_return_partial_tree_witness :
  returned (sampleGroups [Byte.x00; Byte.x61]) = Some (errorString "unexpected byte")
  /\ (wrapConvertFunction sampleGroups [Byte.x00; Byte.x61] [Byte.x2a] [[]]).1
     = (treeAt 1, Some (errorString "unexpected byte"))
  /\ (wrapConvertFunction sampleGroups [Byte.x00; Byte.x61] [Byte.x2a] [[]]).2 !! 1%nat
     = Some [([Byte.x00; Byte.x61], 2)].
Proof.
  split; [reflexivity|].
  pose proof (callback_wrappers_return_partial_tree
                (fun body _ => sampleGroups body) sampleGroups
                [Byte.x00; Byte.x61] [Byte.x2a] [[]]
                (errorString "unexpected byte") (errorString "unexpected byte")
                eq_refl eq_refl) as H.
  exact (proj1 (proj2 H)).
Defined.

(** A request without [name]: the only events are the log entry of the
    malformed sample rate and the invalid-parameter response. *)
Lemma rejected_name_aborts_witness :
  ParseKey (Get (Query reqNoName) "name")
    = inr (errorString "application name is required")
  /\ newEvents reqNoName world0
     = [EvLogError "err" (numError "Atoi" "x" ErrSyntax) "invalid sample rate: x";
        EvWriteInvalidParameterError
          (wrapError "name: application name is required"
             (errorString "application name is required"))].
Proof.
  split; [vm_compute; reflexivity|].
  pose proof (rejected_name_aborts reqNoName world0
                (errorString "application name is required")) as H.
  destruct H as (_ & _ & _ & _ & Hev & _); [vm_compute; reflexivity|].
  rewrite Hev. vm_compute. reflexivity.
Defined.

(** A body the sample group decoder rejects: the exit is the unprocessable
    one and the storage stays empty. *)
Lemma decode_failure_unprocessable_witness :
  (resolved reqBadBody world0).1 = None
  /\ (decoded reqBadBody world0).1.2 = Some (errorString "unexpected byte")
  /\ (ingestHandler reqBadBody world0).1 = ExitUnprocessable
  /\ w_storage (ingestHandler reqBadBody world0).2 = Some [].
Proof.
  split; [vm_compute; reflexivity|].
  split; [vm_compute; reflexivity|].
  pose proof (decode_failure_unprocessable reqBadBody world0
                (errorString "unexpected byte")) as H.
  destruct H as (Hexit & _ & _ & _ & _ & _ & Hst);
    [vm_compute; reflexivity | vm_compute; reflexivity |].
  split; [exact Hexit | exact Hst].
Defined.

(** A request that goes through: both counters read one and the
    application name is recorded. *)
Lemma counters_iff_success_witness :
  (resolved reqLines world0).1 = None
  /\ (decoded reqLines world0).1.2 = None
  /\ (submitted reqLines world0).1 = None
  /\ (ingestHandler reqLines world0).1 = ExitOK
  /\ w_stats (ingestHandler reqLines world0).2 !! "ingest" = Some 1%nat
  /\ w_stats (ingestHandler reqLines world0).2 !! "ingest:unknown" = Some 1%nat
  /\ w_appStats (ingestHandler reqLines world0).2 = {[ "app.name" ]}.
Proof.
  assert ((resolved reqLines world0).1 = None
          /\ (decoded reqLines world0).1.2 = None
          /\ (submitted reqLines world0).1 = None) as Hok
    by (vm_compute; repeat split; reflexivity).
  destruct (counters_iff_success reqLines world0) as (Hexit & Hinc & _ & _).
  destruct (Hinc Hok) as (k & Hk & Hst & Ha & _).
  destruct Hok as (H1 & H2 & H3).
  do 3 (split; [assumption|]).
  split; [by apply Hexit|].
  rewrite Hst, Ha.
  assert (k = "app.name") as -> by (vm_compute in Hk; congruence).
  vm_compute. repeat split; reflexivity.
Defined.

(** The same request against a pool with a free buffer and against an
    empty pool: different buffers, one Get and one Put, and the same events
    apart from those on the buffer. *)
Lemma buffer_released_exactly_once_witness :
  decoded reqLines (with_pool [] world0) = decoded reqLines world0
  /\ acquired (with_pool [] world0) <> acquired world0
  /\ countEvents isPoolGet (newEvents reqLines world0) = 1%nat
  /\ countEvents isPoolPut (newEvents reqLines world0) = 1%nat
  /\ withoutBuffer (newEvents reqLines (with_pool [] world0))
     = withoutBuffer (newEvents reqLines world0).
Proof.
  assert (decoded reqLines (with_pool [] world0) = decoded reqLines world0) as Hdec
    by (vm_compute; reflexivity).
  split; [exact Hdec|].
  split; [vm_compute; discriminate|].
  destruct (buffer_released_exactly_once reqLines world0 []) as (_ & Hpath & Hafter).
  assert ((resolved reqLines world0).1 = None) as Hres by (vm_compute; reflexivity).
  rewrite Hres in Hpath.
  destruct Hpath as (Hget & Hput & _).
  split; [exact Hget|]. split; [exact Hput|].
  exact (proj1 (proj2 (Hafter Hdec))).
Defined.

(** The first scenario of the specification: [?name=app.name&format=lines]
    selects the line decoder, and the write request carries the defaults. *)
Example scenario_lines :
  selectDecoder (Get (Query reqLines) "format")
                (Get (Header reqLines) "Content-Type") = DecLines
  /\ w_trees (ingestHandler reqLines world0).2 = [[(body1, 5)]]
  /\ w_storage (ingestHandler reqLines world0).2
     = Some [ {| StartTime := 1000; EndTime := 1001; PKey := Some "app.name";
                 Val := treeAt 0; SpyName := "unknown"; SampleRate := 100;
                 Units := "samples"; AggregationType := "sum" |} ].
Proof. vm_compute. repeat split; reflexivity. Qed.

(** The fifth scenario: the storage refuses the write request; the exit is
    the server-error one and no counter moves. *)
Example scenario_storage_failure :
  (ingestHandler reqLines worldClosed).1 = ExitStorageError
  /\ w_stats (ingestHandler reqLines worldClosed).2 = ∅
  /\ countEvents isPoolPut (newEvents reqLines worldClosed) = 1%nat.
Proof. vm_compute. repeat split; reflexivity. Qed.

(** Two parameter records that differ in everything but the modifiers. *)
Lemma resolver_overwrites_input_witness :
  ip_modifiers (set_sampleRate 7 (set_spyName "old" zero_ingestParams))
    = ip_modifiers zero_ingestParams
  /\ ingestParamsFromRequest reqLines
       (set_sampleRate 7 (set_spyName "old" zero_ingestParams)) world0
     = ingestParamsFromRequest reqLines zero_ingestParams world0.
Proof.
  split; [reflexivity|].
  apply (resolver_overwrites_input reqLines). reflexivity.
Defined.

(** [sampleRate=-1] parses, is out of the range and is stored as another
    value. *)
Lemma sampleRate_unchanged_iff_in_range_witness :
  Atoi (Get (Query reqNegativeRate) "sampleRate") = inl (-1)
  /\ (ip_sampleRate (ingestParamsFromRequest reqNegativeRate zero_ingestParams world0).1.2
      = -1 <-> 0 <= -1 < 2 ^ 32).
Proof.
  split; [vm_compute; reflexivity|].
  apply (sampleRate_unchanged_iff_in_range reqNegativeRate zero_ingestParams
           world0 (-1)).
  vm_compute; reflexivity.
Defined.

(** A request without [from] and [until]. *)
Lemma absent_time_window_is_now_witness :
  Get (Query reqLines) "from" = ""
  /\ Get (Query reqLines) "until" = ""
  /\ StartTime (writeRequest reqLines world0) = 1000
  /\ EndTime (writeRequest reqLines world0) = 1001.
Proof.
  split; [vm_compute; reflexivity|].
  split; [vm_compute; reflexivity|].
  destruct (absent_time_window_is_now reqLines world0) as (_ & _ & Hs & He);
    [vm_compute; reflexivity | vm_compute; reflexivity |].
  split; [exact Hs | exact He].
Defined.

(** A count of -1 reaches the tree as 2^64 - 1. *)
Lemma treeInsert_count_conversion_witness :
  minInt <= -1 <= maxInt
  /\ treeInsert (treeAt 0) body1 (-1) [[]] !! 0%nat
     = Some [(body1, 18446744073709551615)].
Proof.
  split; [vm_compute; split; discriminate|].
  etransitivity.
  - apply (treeInsert_count_conversion (C := collaborators) 0 body1 (-1) [[]]).
    vm_compute; split; discriminate.
  - reflexivity.
Defined.

(** The line request: one call on the ingester, with the defaults. *)
Lemma write_request_carries_parameters_witness :
  ParseKey (Get (Query reqLines) "name") = inl "app.name"
  /\ (decoded reqLines world0).1.2 = None
  /\ List.filter isIngesterPut (newEvents reqLines world0)
     = [EvIngesterPut
          {| StartTime := 1000; EndTime := 1001; PKey := Some "app.name";
             Val := treeAt 0; SpyName := "unknown"; SampleRate := 100;
             Units := "samples"; AggregationType := "sum" |}].
Proof.
  split; [vm_compute; reflexivity|].
  split; [vm_compute; reflexivity|].
  etransitivity.
  - apply (write_request_carries_parameters reqLines world0 "app.name");
      vm_compute; reflexivity.
  - vm_compute. reflexivity.
Defined.

(** The line request against the closed storage. *)
Lemma storage_failure_server_error_witness :
  (resolved reqLines worldClosed).1 = None
  /\ (decoded reqLines worldClosed).1.2 = None
  /\ (submitted reqLines worldClosed).1 = Some (errorString "storage is closed")
  /\ (ingestHandler reqLines worldClosed).1 = ExitStorageError.
Proof.
  split; [vm_compute; reflexivity|].
  split; [vm_compute; reflexivity|].
  split; [vm_compute; reflexivity|].
  apply (storage_failure_server_error reqLines worldClosed
           (errorString "storage is closed")); vm_compute; reflexivity.
Defined.

(** The failing group request: the tree holds the pair delivered before the
    failure and the request is unprocessable. *)
Lemma callback_request_builds_one_tree_witness :
  ParseKey (Get (Query reqBadBody) "name") = inl "app.name"
  /\ emissionOf (selectDecoder (Get (Query reqBadBody) "format")
                               (Get (Header reqBadBody) "Content-Type"))
       (Body reqBadBody) (B (acquired world0))
     = Some (sampleGroups [Byte.x00; Byte.x61])
  /\ w_trees (ingestHandler reqBadBody world0).2
     = [[([Byte.x00; Byte.x61], 2)]].
Proof.
  split; [vm_compute; reflexivity|].
  split; [vm_compute; reflexivity|].
  destruct (callback_request_builds_one_tree reqBadBody world0 "app.name"
              (sampleGroups [Byte.x00; Byte.x61])) as (Ht & _);
    [vm_compute; reflexivity | vm_compute; reflexivity |].
  etransitivity; [exact Ht|]. vm_compute. reflexivity.
Defined.

(** The sample pool is a stack: with a free buffer on it, taking and putting
    back restores it. *)
Lemma pool_restored_witness :
  pool_Put (pool_Get (w_pool world0)).1 (pool_Get (w_pool world0)).2
    = w_pool world0
  /\ w_pool (ingestHandler reqLines world0).2 = w_pool world0.
Proof.
  split; [reflexivity|].
  apply (pool_restored reqLines world0). reflexivity.
Defined.

(** The line request against a pool with a free buffer and an empty pool. *)
Lemma buffer_reaches_trie_decoder_only_witness :
  selectDecoder (Get (Query reqLines) "format")
                (Get (Header reqLines) "Content-Type") <> DecTrie
  /\ acquired (with_pool [] world0) <> acquired world0
  /\ decoded reqLines (with_pool [] world0) = decoded reqLines world0.
Proof.
  split; [vm_compute; discriminate|].
  split; [vm_compute; discriminate|].
  apply (buffer_reaches_trie_decoder_only reqLines world0 []).
  vm_compute; discriminate.
Defined.

End Runs.
